(** * The session / matchmaking engine of the signaling server

    A shallow embedding of the in-memory engine of the signaling server
    (the [users] map, the [waitingPool] array, the [rooms] map, [tryMatch],
    [handleDisconnect] and the socket event handlers), followed by the
    properties of it that the specification states. *)

From stdpp Require Import gmap strings list fin_maps pretty.

(** ** Data model *)

(** [type UserState = "IDLE" | "SEARCHING" | "IN_CHAT"] *)
Inductive UserState := IDLE | SEARCHING | IN_CHAT.

#[global] Instance UserState_eq_dec : EqDecision UserState.
Proof. solve_decision. Defined.

Inductive Gender := male | female | couple.

(** [type Profile], together with the [id] that [start-searching] receives
    with it ([Profile & { id: string }]).  The field [id] is called
    [profile_id] here, [id] being the identity function of the library. *)
Record Profile := {
  username : option string;
  avatar_url : option string;
  dob : option string;
  gender : option Gender;
  profile_id : string
}.

(** [interface User]; an optional field that is absent is [None]. *)
Record User := {
  state : UserState;
  roomId : option string;
  profile : option Profile;
  persistentId : option string
}.

(** The value type of [rooms]: [{ users: [string, string] }]. *)
Record Room := { room_users : string * string }.

(** The server state.  [next_uuid] counts the calls of [uuidv4] made so far:
    the generator is modelled by [uuidv4] below. *)
Record State := {
  users : gmap string User;
  waitingPool : list string;
  rooms : gmap string Room;
  next_uuid : nat
}.

(** The events the server emits with [io.to(target).emit(name, payload)]. *)
Inductive OutEvent :=
| match_found (room partnerId : string) (initiator : bool)
              (partnerProfile : option Profile)
| partner_disconnected
| auto_searching
| offer (sdp senderId : string)
| answer (sdp senderId : string)
| ice_candidate (candidate senderId : string)
| chat_message (message from : string)
| report_successful
| report_failed.

(** What a handler does to the outside, in program order: an emit to one
    connection, or the call of the [create-report-mvp] function. *)
Inductive Effect :=
| emit (target : string) (ev : OutEvent)
| invoke_create_report (reportingUserId reportedUserId : option string)
                       (screenshot chatLog : string).

(** The events the server receives; [socketId] is the [socket.id] of the
    connection the event arrives on.  [ReportSettled] is the continuation of
    the [await] in the [initiate-report] handler: the call has returned,
    with an error or without one. *)
Inductive Event :=
| Connection (socketId : string)
| StartSearching (socketId : string) (p : Profile)
| StopSearching (socketId : string)
| SkipChat (socketId : string)
| StopChat (socketId : string)
| OfferEv (socketId partnerId sdp : string)
| AnswerEv (socketId partnerId sdp : string)
| IceCandidateEv (socketId partnerId candidate : string)
| ChatMessageEv (socketId partnerId message : string)
| InitiateReport (socketId partnerId screenshot chatLog : string)
| ReportSettled (socketId : string) (ok : bool)
| Disconnect (socketId : string).

(** ** JavaScript helpers *)

(** A string in a condition: the empty string is false. *)
Definition truthy (s : string) : bool :=
  match s with EmptyString => false | String _ _ => true end.

(** An optional string field in a condition: [undefined] is false. *)
Definition truthy_opt (o : option string) : bool :=
  match o with Some s => truthy s | None => false end.

(** [waitingPool.includes(x)] *)
Definition includes (x : string) (l : list string) : bool :=
  bool_decide (x ∈ l).

(** [waitingPool.indexOf(x)]; [None] is [-1]. *)
Fixpoint indexOf (x : string) (l : list string) : option nat :=
  match l with
  | [] => None
  | y :: l' => if bool_decide (y = x) then Some 0 else S <$> indexOf x l'
  end.

(** [const i = pool.indexOf(x); if (i > -1) pool.splice(i, 1)] *)
Definition splice_out (x : string) (l : list string) : list string :=
  match indexOf x l with
  | Some i => delete i l
  | None => l
  end.

(** [if (!pool.includes(x)) pool.push(x)] *)
Definition push_absent (x : string) (l : list string) : list string :=
  if includes x l then l else l ++ [x].

(** [if (!pool.includes(x)) pool.unshift(x)] *)
Definition unshift_absent (x : string) (l : list string) : list string :=
  if includes x l then l else x :: l.

(** [room.users.find(id => id !== socketId)] *)
Definition find_other (r : Room) (socketId : string) : option string :=
  let '(a, b) := room_users r in
  if bool_decide (a ≠ socketId) then Some a
  else if bool_decide (b ≠ socketId) then Some b
  else None.

(** The [n]-th identifier [uuidv4()] returns: not empty, and different from
    the ones returned before. *)
Definition uuidv4 (n : nat) : string := "room-" +:+ pretty n.

(** ** Updates of a [User] object *)

(** [u.state = "IN_CHAT"; u.roomId = r] *)
Definition enter_chat (r : string) (u : User) : User :=
  {| state := IN_CHAT; roomId := Some r;
     profile := profile u; persistentId := persistentId u |}.

(** [u.state = "SEARCHING"; delete u.roomId] *)
Definition to_searching (u : User) : User :=
  {| state := SEARCHING; roomId := None;
     profile := profile u; persistentId := persistentId u |}.

(** [u.state = "IDLE"; delete u.roomId] *)
Definition to_idle (u : User) : User :=
  {| state := IDLE; roomId := None;
     profile := profile u; persistentId := persistentId u |}.

(** [u.state = "IDLE"] alone, of [stop-searching] *)
Definition set_idle (u : User) : User :=
  {| state := IDLE; roomId := roomId u;
     profile := profile u; persistentId := persistentId u |}.

(** [u.state = "SEARCHING"; u.profile = p; u.persistentId = p.id] *)
Definition begin_search (p : Profile) (u : User) : User :=
  {| state := SEARCHING; roomId := roomId u;
     profile := Some p; persistentId := Some (profile_id p) |}.

(** [{ state: "IDLE" }] *)
Definition new_user : User :=
  {| state := IDLE; roomId := None; profile := None; persistentId := None |}.

(** The state with one of its three stores updated. *)
Definition set_users (f : gmap string User → gmap string User) (s : State) : State :=
  {| users := f (users s); waitingPool := waitingPool s;
     rooms := rooms s; next_uuid := next_uuid s |}.

Definition set_pool (f : list string → list string) (s : State) : State :=
  {| users := users s; waitingPool := f (waitingPool s);
     rooms := rooms s; next_uuid := next_uuid s |}.

Definition set_rooms (f : gmap string Room → gmap string Room) (s : State) : State :=
  {| users := users s; waitingPool := waitingPool s;
     rooms := f (rooms s); next_uuid := next_uuid s |}.

(** ** [tryMatch] *)

(** [!user || user.state !== 'SEARCHING'] *)
Definition not_searching (o : option User) : bool :=
  match o with
  | None => true
  | Some u => negb (bool_decide (state u = SEARCHING))
  end.

(** [if (x) waitingPool.unshift(x)] *)
Definition unshift_truthy (x : string) (l : list string) : list string :=
  if truthy x then x :: l else l.

(** The state after the body of the loop has paired [user1Id] and
    [user2Id], [rest] being the pool after the two [shift()]. *)
Definition pair_up (s : State) (user1Id user2Id : string) (rest : list string) : State :=
  let room := uuidv4 (next_uuid s) in
  {| users := alter (enter_chat room) user2Id
                (alter (enter_chat room) user1Id (users s));
     waitingPool := rest;
     rooms := <[room := {| room_users := (user1Id, user2Id) |}]> (rooms s);
     next_uuid := S (next_uuid s) |}.

(** The two [match-found] emits of one pairing, read in state [s], the one
    before the pairing (the pairing does not touch a profile). *)
Definition match_emits (s : State) (user1Id user2Id : string) : list Effect :=
  let room := uuidv4 (next_uuid s) in
  [ emit user1Id (match_found room user2Id true (users s !! user2Id ≫= profile));
    emit user2Id (match_found room user1Id false (users s !! user1Id ≫= profile)) ].

(** The [while] loop of [tryMatch]; [fuel] bounds the number of iterations. *)
Fixpoint tryMatch_loop (fuel : nat) (s : State) : State * list Effect :=
  match fuel with
  | 0 => (s, [])
  | S fuel' =>
    match waitingPool s with
    | user1Id :: user2Id :: rest =>
      if not_searching (users s !! user1Id) then
        tryMatch_loop fuel' (set_pool (λ _, unshift_truthy user2Id rest) s)
      else if not_searching (users s !! user2Id) then
        tryMatch_loop fuel' (set_pool (λ _, unshift_truthy user1Id rest) s)
      else
        let '(s', out) := tryMatch_loop fuel' (pair_up s user1Id user2Id rest) in
        (s', match_emits s user1Id user2Id ++ out)
    | _ => (s, [])
    end
  end.

(** Every iteration takes at least one entry out of the pool, so the length
    of the pool is fuel enough ([tryMatch_exit] below: the loop is left with
    its condition false). *)
Definition tryMatch (s : State) : State * list Effect :=
  tryMatch_loop (length (waitingPool s)) s.

(** [h; tryMatch()] *)
Definition then_tryMatch (r : State * list Effect) : State * list Effect :=
  let '(s', out') := tryMatch r.1 in (s', r.2 ++ out').

(** ** [handleDisconnect] *)

(** [user.state === "IN_CHAT" && user.roomId], then [rooms.get(roomId)]:
    the identifier of the room of [user] and the room, when both are there. *)
Definition live_room (s : State) (user : User) : option (string * Room) :=
  if bool_decide (state user = IN_CHAT) && truthy_opt (roomId user) then
    r ← roomId user; room ← rooms s !! r; Some (r, room)
  else None.

(** [room.users.find(id => id !== socketId)] followed by the test
    [if (partnerId)]. *)
Definition find_partner (room : Room) (socketId : string) : option string :=
  partnerId ← find_other room socketId;
  if truthy partnerId then Some partnerId else None.

(** The body of [if (partner)] in [handleDisconnect] up to, and without,
    the call of [tryMatch]: the pool is not searched for [partnerId]. *)
Definition disconnect_requeue (s : State) (partnerId : string) : State * list Effect :=
  (set_pool (cons partnerId) (set_users (alter to_searching partnerId) s),
   [emit partnerId auto_searching]).

(** [handleDisconnect(socketId)] *)
Definition handleDisconnect (s : State) (socketId : string) : State * list Effect :=
  match users s !! socketId with
  | None => (s, [])
  | Some user =>
    let s1 := set_pool (splice_out socketId) s in
    let '(s2, out) :=
      match live_room s1 user with
      | Some (r, room) =>
        let '(s3, out) :=
          match find_partner room socketId with
          | Some partnerId =>
            match users s1 !! partnerId with
            | Some _ =>
              let '(s4, out) := then_tryMatch (disconnect_requeue s1 partnerId) in
              (s4, emit partnerId partner_disconnected :: out)
            | None => (s1, [emit partnerId partner_disconnected])
            end
          | None => (s1, [])
          end in
        (set_rooms (delete r) s3, out)
      | None => (s1, [])
      end in
    (set_users (delete socketId) s2, out)
  end.

(** ** The socket event handlers *)

(** [users.set(socket.id, { state: "IDLE" })] *)
Definition connection (s : State) (socketId : string) : State * list Effect :=
  (set_users <[socketId := new_user]> s, []).

(** [socket.on("start-searching", ...)] *)
Definition start_searching (s : State) (socketId : string) (p : Profile)
  : State * list Effect :=
  match users s !! socketId with
  | Some user =>
    if bool_decide (state user = IDLE) || bool_decide (state user = SEARCHING) then
      then_tryMatch
        (set_pool (push_absent socketId)
           (set_users (alter (begin_search p) socketId) s), [])
    else (s, [])
  | None => (s, [])
  end.

(** [socket.on("stop-searching", ...)] *)
Definition stop_searching (s : State) (socketId : string) : State * list Effect :=
  match users s !! socketId with
  | Some user =>
    if bool_decide (state user = SEARCHING) then
      (set_users (alter set_idle socketId) (set_pool (splice_out socketId) s), [])
    else (s, [])
  | None => (s, [])
  end.

(** The three early returns that [skip-chat] and [stop-chat] begin with: the
    room identifier and the partner identifier the handler goes on with. *)
Definition paired_with (s : State) (socketId : string) : option (string * string) :=
  user ← users s !! socketId;
  '(r, room) ← live_room s user;
  partnerId ← find_partner room socketId;
  Some (r, partnerId).

(** [skip-chat] from [const partner = users.get(partnerId)] to
    [rooms.delete(roomId)]. *)
Definition skip_chat_cleanup (s : State) (socketId r partnerId : string)
  : State * list Effect :=
  let s1 := set_pool (push_absent socketId)
              (set_users (alter to_searching socketId) s) in
  let '(s2, out) :=
    match users s !! partnerId with
    | Some _ =>
      (set_pool (unshift_absent partnerId)
         (set_users (alter to_searching partnerId) s1),
       [emit partnerId auto_searching])
    | None => (s1, [])
    end in
  (set_rooms (delete r) s2,
   emit partnerId partner_disconnected :: emit socketId auto_searching :: out).

(** [socket.on("skip-chat", ...)] *)
Definition skip_chat (s : State) (socketId : string) : State * list Effect :=
  match paired_with s socketId with
  | Some (r, partnerId) => then_tryMatch (skip_chat_cleanup s socketId r partnerId)
  | None => (s, [])
  end.

(** [stop-chat] from [const partner = users.get(partnerId)] to
    [rooms.delete(roomId)]. *)
Definition stop_chat_cleanup (s : State) (socketId r partnerId : string)
  : State * list Effect :=
  let s1 := set_users (alter to_idle socketId) s in
  let '(s2, out) :=
    match users s !! partnerId with
    | Some _ =>
      (set_pool (unshift_absent partnerId)
         (set_users (alter to_searching partnerId) s1),
       [emit partnerId auto_searching])
    | None => (s1, [])
    end in
  (set_rooms (delete r) s2, emit partnerId partner_disconnected :: out).

(** [socket.on("stop-chat", ...)] *)
Definition stop_chat (s : State) (socketId : string) : State * list Effect :=
  match paired_with s socketId with
  | Some (r, partnerId) => then_tryMatch (stop_chat_cleanup s socketId r partnerId)
  | None => (s, [])
  end.

(** [offer], [answer] and [ice-candidate] *)
Definition relay (s : State) (partnerId : string) (ev : OutEvent) : State * list Effect :=
  (s, [emit partnerId ev]).

(** [socket.on("chat-message", ...)] *)
Definition chat_message_handler (s : State) (socketId partnerId message : string)
  : State * list Effect :=
  match users s !! socketId with
  | Some user =>
    if bool_decide (state user = IN_CHAT) && truthy partnerId then
      (s, [emit partnerId (chat_message message socketId)])
    else (s, [])
  | None => (s, [])
  end.

(** The test [initiate-report] begins with; when it lets the request
    through: the two [User] objects and [user.roomId]. *)
Definition report_guard (s : State) (socketId partnerId : string)
  : option (User * User * string) :=
  user ← users s !! socketId;
  partner ← users s !! partnerId;
  if bool_decide (state user = IN_CHAT) && truthy_opt (roomId user)
     && truthy_opt (persistentId user) && truthy_opt (persistentId partner)
  then r ← roomId user; Some (user, partner, r)
  else None.

(** [initiate-report] from the first emit to [rooms.delete(roomId)].  The
    two objects are updated one after the other: when [partnerId] is
    [socketId] itself they are one object, and the second update wins. *)
Definition report_cleanup (s : State) (socketId partnerId r : string)
  : State * list Effect :=
  (set_rooms (delete r)
     (set_pool (unshift_absent partnerId)
        (set_users (λ us, alter to_searching partnerId (alter to_idle socketId us)) s)),
   [emit partnerId partner_disconnected; emit socketId partner_disconnected;
    emit partnerId auto_searching]).

(** The handler up to the [await]: the cleanup, [tryMatch()], and then the
    call of the report function. *)
Definition initiate_report (s : State) (socketId partnerId screenshot chatLog : string)
  : State * list Effect :=
  match report_guard s socketId partnerId with
  | Some (user, partner, r) =>
    let '(s', out) := then_tryMatch (report_cleanup s socketId partnerId r) in
    (s', out ++ [invoke_create_report (persistentId user) (persistentId partner)
                   screenshot chatLog])
  | None => (s, [])
  end.

(** The handler after the [await]: one emit to the reporting connection. *)
Definition report_settled (s : State) (socketId : string) (ok : bool)
  : State * list Effect :=
  (s, [emit socketId (if ok then report_successful else report_failed)]).

(** ** The engine *)

(** The state the server starts in. *)
Definition init : State :=
  {| users := ∅; waitingPool := []; rooms := ∅; next_uuid := 0 |}.

(** One event, handled by its handler. *)
Definition step (s : State) (e : Event) : State * list Effect :=
  match e with
  | Connection socketId => connection s socketId
  | StartSearching socketId p => start_searching s socketId p
  | StopSearching socketId => stop_searching s socketId
  | SkipChat socketId => skip_chat s socketId
  | StopChat socketId => stop_chat s socketId
  | OfferEv socketId partnerId sdp => relay s partnerId (offer sdp socketId)
  | AnswerEv socketId partnerId sdp => relay s partnerId (answer sdp socketId)
  | IceCandidateEv socketId partnerId c => relay s partnerId (ice_candidate c socketId)
  | ChatMessageEv socketId partnerId m => chat_message_handler s socketId partnerId m
  | InitiateReport socketId partnerId sc log => initiate_report s socketId partnerId sc log
  | ReportSettled socketId ok => report_settled s socketId ok
  | Disconnect socketId => handleDisconnect s socketId
  end.

(** The state after the events [es], handled one after the other (an event
    handler runs to its end, or to its [await], before the next begins). *)
Definition run (s : State) (es : list Event) : State :=
  foldl (λ s e, (step s e).1) s es.

(** * Notions of the properties *)

(** ** The pool and the room identifiers between two events *)

(** Every pool entry names a [User] of the registry. *)
Definition pool_live (s : State) : Prop :=
  ∀ x, x ∈ waitingPool s → is_Some (users s !! x).

(** What holds of the pool whenever no handler is running. *)
Definition pool_inv (s : State) : Prop :=
  length (waitingPool s) ≤ 1 ∧ pool_live s.

(** The connection an event destroys the [User] of: the one that disconnects. *)
Definition disconnected (e : Event) : gset string :=
  match e with
  | Disconnect socketId => {[socketId]}
  | _ => ∅
  end.

(** No identifier the generator has still to return names a room. *)
Definition uuid_fresh (s : State) : Prop :=
  ∀ n, next_uuid s ≤ n → rooms s !! uuidv4 n = None.

(** Every [roomId] of a [User] is one of the first [n] the generator
    returned. *)
Definition users_issued (n : nat) (m : gmap string User) : Prop :=
  ∀ x u r, m !! x = Some u → roomId u = Some r → ∃ k, k < n ∧ r = uuidv4 k.

(** The room identifiers in use are the generator's, and none it has still
    to return is in use. *)
Definition ids_issued (s : State) : Prop :=
  uuid_fresh s ∧ users_issued (next_uuid s) (users s).

(** ** Pairings and effects *)

(** One pairing of the Matchmaker: the room, the two identifiers in the
    order the loop took them from the pool, and their profiles. *)
Record Pairing := {
  pairing_room : string;
  popped_first : string;
  popped_second : string;
  first_profile : option Profile;
  second_profile : option Profile
}.

(** The two [match-found] events of a pairing. *)
Definition pairing_emits (p : Pairing) : list Effect :=
  [ emit (popped_first p)
      (match_found (pairing_room p) (popped_second p) true (second_profile p));
    emit (popped_second p)
      (match_found (pairing_room p) (popped_first p) false (first_profile p)) ].

(** What holds of a pairing made by a call of [tryMatch] from state [s]
    that ended in state [s']. *)
Definition pairing_of (s s' : State) (p : Pairing) : Prop :=
  [popped_first p; popped_second p] `sublist_of` waitingPool s
  ∧ rooms s' !! pairing_room p
    = Some {| room_users := (popped_first p, popped_second p) |}.

(** The specification calls the member that is sent [initiator: true] the
    longer-waiting searcher of the two.  A member that is in the pool when
    an event arrives has been waiting since an earlier event, and one that
    is not begins to wait while the event is handled at the earliest.  So,
    if the initiator of every pairing made while [e] is handled in state
    [s] is the one that has waited longer, then whenever the other member
    was in the pool when [e] arrived the initiator was in it too. *)
Definition initiator_waited_longer (s : State) (e : Event) : Prop :=
  ∀ room first second partnerProfile,
    emit first (match_found room second true partnerProfile) ∈ (step s e).2 →
    second ∈ waitingPool s → first ∈ waitingPool s.

(** An effect that is an emit, not the call of the report function. *)
Definition is_emit (e : Effect) : bool :=
  match e with emit _ _ => true | invoke_create_report _ _ _ _ => false end.

(** [user && user.state === "IN_CHAT"] for the sender of an event. *)
Definition sender_in_chat (s : State) (socketId : string) : bool :=
  match users s !! socketId with
  | Some user => bool_decide (state user = IN_CHAT)
  | None => false
  end.

(** ** Rooms *)

(** [m] is the key of a [User] in a chat in room [r]. *)
Definition in_room (us : gmap string User) (r m : string) : Prop :=
  ∃ u, us !! m = Some u ∧ state u = IN_CHAT ∧ roomId u = Some r.

(** [x] is one of the two members of [room]. *)
Definition member (room : Room) (x : string) : Prop :=
  x = (room_users room).1 ∨ x = (room_users room).2.

(** A room holds two connection identifiers, and both are in a chat in it;
    a user in a chat has the [roomId] of a room that lists it. *)
Definition rooms_consistent (us : gmap string User) (rs : gmap string Room) : Prop :=
  (∀ r room, rs !! r = Some room →
     (room_users room).1 ≠ (room_users room).2
     ∧ in_room us r (room_users room).1 ∧ in_room us r (room_users room).2)
  ∧ (∀ x u, us !! x = Some u → state u = IN_CHAT →
       ∃ r room, roomId u = Some r ∧ rs !! r = Some room ∧ member room x).

(** The room invariant of a state. *)
Definition room_invariant (s : State) : Prop :=
  rooms_consistent (users s) (rooms s).

(** The acting user is there and has no live room: it is not in a chat, or
    has no [roomId], or its [roomId] names no room of the registry. *)
Definition no_live_room (s : State) (socketId : string) : Prop :=
  ∃ user, users s !! socketId = Some user ∧ live_room s user = None.

(** What the specification says of [stop-chat] for such a user: the entry is
    taken out of the pool and the user is made idle all the same. *)
Definition stop_chat_still_applies (s : State) (socketId : string) : Prop :=
  no_live_room s socketId →
  (socketId ∉ waitingPool (step s (StopChat socketId)).1)
  ∧ state <$> users (step s (StopChat socketId)).1 !! socketId = Some IDLE.

(** ** Honest runs *)

(** An event the transport and an honest client produce: a new connection
    has an identifier of its own, not empty, and a report names the partner
    of the reporter. *)
Definition honest (s : State) (e : Event) : Prop :=
  match e with
  | Connection socketId => truthy socketId = true ∧ users s !! socketId = None
  | InitiateReport socketId partnerId _ _ =>
    report_guard s socketId partnerId = None
    ∨ ∃ r, paired_with s socketId = Some (r, partnerId)
  | _ => True
  end.

(** Every event of [es] is honest in the state it arrives in. *)
Fixpoint honest_run (s : State) (es : list Event) : Prop :=
  match es with
  | [] => True
  | e :: es' => honest s e ∧ honest_run (step s e).1 es'
  end.

(** What holds between two events of an honest run. *)
Record consistent (s : State) : Prop := {
  c_rooms : rooms_consistent (users s) (rooms s);
  c_room_ids : ∀ r, is_Some (rooms s !! r) → truthy r = true;
  c_pool_NoDup : NoDup (waitingPool s);
  c_pool : ∀ x, x ∈ waitingPool s → ∃ u, users s !! x = Some u ∧ state u = SEARCHING;
  c_keys : ∀ x, is_Some (users s !! x) → truthy x = true;
  c_fresh : uuid_fresh s
}.

(** [rooms.delete(r); users.delete(socketId)], the end of [handleDisconnect]. *)
Definition forget (socketId r : string) (s : State) : State :=
  set_users (delete socketId) (set_rooms (delete r) s).

(** ** Scenarios *)

(** The profile a client called [name] sends. *)
Definition profile_of (name : string) : Profile :=
  {| username := Some name; avatar_url := None; dob := None; gender := None;
     profile_id := "user-" +:+ name |}.

(** One connection, searching, alone in the pool. *)
Definition one_searching : list Event :=
  [Connection "X"; StartSearching "X" (profile_of "X")].

(** Four connections: Z is paired with W in the first room, U with P in the
    second. *)
Definition two_rooms : list Event :=
  [Connection "Z"; Connection "W"; Connection "U"; Connection "P";
   StartSearching "Z" (profile_of "Z"); StartSearching "W" (profile_of "W");
   StartSearching "U" (profile_of "U"); StartSearching "P" (profile_of "P")].

(** Then Z reports P, who is not its partner. *)
Definition stranger_reported : list Event :=
  two_rooms ++ [InitiateReport "Z" "P" "screenshot" "log"].

(** Two searching users and a third, idle one in a pool no handler has
    brought the Matchmaker to yet. *)
Definition three_waiting : State :=
  {| users := <["A" := begin_search (profile_of "A") new_user]>
              (<["B" := new_user]>
               (<["C" := begin_search (profile_of "C") new_user]> ∅));
     waitingPool := ["A"; "B"; "C"];
     rooms := ∅;
     next_uuid := 0 |}.

(** * More of the engine *)

(** ** The standalone copy of the server *)

(** The repository holds a second, standalone copy of the server.  Its
    [tryMatch], its connection handler and its [start-searching] handler are
    those above, statement for statement; its [handleDisconnect] differs in
    one place: it does not keep [user.roomId] in a constant, and reads the
    field again for [rooms.delete(user.roomId)], after [tryMatch()] has
    run. *)
Module Standalone.

(** [rooms.delete(user.roomId)], [user] being the object of [socketId]; a
    [roomId] that is [undefined] deletes nothing. *)
Definition delete_room_of (socketId : string) (s : State) : State :=
  match users s !! socketId ≫= roomId with
  | Some r => set_rooms (delete r) s
  | None => s
  end.

(** [handleDisconnect(socketId)] of the copy. *)
Definition handleDisconnect (s : State) (socketId : string) : State * list Effect :=
  match users s !! socketId with
  | None => (s, [])
  | Some user =>
    let s1 := set_pool (splice_out socketId) s in
    let '(s2, out) :=
      match live_room s1 user with
      | Some (_, room) =>
        let '(s3, out) :=
          match find_partner room socketId with
          | Some partnerId =>
            match users s1 !! partnerId with
            | Some _ =>
              let '(s4, out) := then_tryMatch (disconnect_requeue s1 partnerId) in
              (s4, emit partnerId partner_disconnected :: out)
            | None => (s1, [emit partnerId partner_disconnected])
            end
          | None => (s1, [])
          end in
        (delete_room_of socketId s3, out)
      | None => (s1, [])
      end in
    (set_users (delete socketId) s2, out)
  end.

End Standalone.

(** ** More notions of the properties *)

(** [x] names a [User] the loop of [tryMatch] would accept. *)
Definition searching (s : State) (x : string) : bool :=
  negb (not_searching (users s !! x)).

(** The pairings of a pool the loop finds nothing to discard in: two by
    two from the front, the [n]-th identifier of the generator first. *)
Fixpoint pair_off (s : State) (n : nat) (l : list string) : list Pairing :=
  match l with
  | a :: b :: rest =>
    {| pairing_room := uuidv4 n; popped_first := a; popped_second := b;
       first_profile := users s !! a ≫= profile;
       second_profile := users s !! b ≫= profile |} :: pair_off s (S n) rest
  | _ => []
  end.

(** What two by two leaves of a list: nothing, or its last element. *)
Fixpoint leftover (l : list string) : list string :=
  match l with
  | _ :: _ :: rest => leftover rest
  | _ => l
  end.

(** What a [match-found] pair tells its two receivers is so in [s']: both
    are in a chat in the room, the registry lists them in it, and the
    profiles are theirs. *)
Definition announced (s' : State) (p : Pairing) : Prop :=
  rooms s' !! pairing_room p
    = Some {| room_users := (popped_first p, popped_second p) |}
  ∧ in_room (users s') (pairing_room p) (popped_first p)
  ∧ in_room (users s') (pairing_room p) (popped_second p)
  ∧ first_profile p = users s' !! popped_first p ≫= profile
  ∧ second_profile p = users s' !! popped_second p ≫= profile.

(** The connection an effect is sent to. *)
Definition effect_target (e : Effect) : option string :=
  match e with
  | emit target _ => Some target
  | invoke_create_report _ _ _ _ => None
  end.

(** The fields of a [User] fit its state: it has a [roomId], and one the
    generator has returned, exactly when it is in a chat; and the
    [persistentId] is the [id] of the profile, both set or neither. *)
Definition well_shaped (n : nat) (u : User) : Prop :=
  (state u = IN_CHAT → ∃ k, k < n ∧ roomId u = Some (uuidv4 k))
  ∧ (state u ≠ IN_CHAT → roomId u = None)
  ∧ persistentId u = profile_id <$> profile u.

(** [a] and [b] are in a chat with each other in room [r]. *)
Definition paired_in (s : State) (r a b : string) : Prop :=
  rooms s !! r = Some {| room_users := (a, b) |}
  ∧ in_room (users s) r a ∧ in_room (users s) r b.

(** Z and W are paired, and C waits alone. *)
Definition one_waiting : list Event :=
  [Connection "Z"; Connection "W"; Connection "C";
   StartSearching "Z" (profile_of "Z"); StartSearching "W" (profile_of "W");
   StartSearching "C" (profile_of "C")].

(** A pool of five with B idle in it: A is paired with C, and D with E. *)
Definition five_waiting : State :=
  {| users := <["A" := begin_search (profile_of "A") new_user]>
              (<["B" := new_user]>
               (<["C" := begin_search (profile_of "C") new_user]>
                (<["D" := begin_search (profile_of "D") new_user]>
                 (<["E" := begin_search (profile_of "E") new_user]> ∅))));
     waitingPool := ["A"; "B"; "C"; "D"; "E"];
     rooms := ∅;
     next_uuid := 0 |}.

(** * Properties *)

(** ** The loop of [tryMatch] *)

Lemma unshift_truthy_length x l : length (unshift_truthy x l) ≤ S (length l).
Proof. unfold unshift_truthy. destruct (truthy x); simpl; lia. Qed.

Lemma unshift_truthy_sublist x y l : unshift_truthy x l `sublist_of` y :: x :: l.
Proof.
  unfold unshift_truthy. destruct (truthy x).
  - by apply sublist_cons.
  - by do 2 apply sublist_cons.
Qed.

Lemma unshift_truthy_sublist' x y l : unshift_truthy x l `sublist_of` x :: y :: l.
Proof.
  unfold unshift_truthy. destruct (truthy x).
  - apply sublist_skip. by apply sublist_cons.
  - by do 2 apply sublist_cons.
Qed.

(** More fuel than the length of the pool changes nothing. *)
Lemma tryMatch_loop_fuel n : ∀ m s,
  length (waitingPool s) ≤ n → length (waitingPool s) ≤ m →
  tryMatch_loop n s = tryMatch_loop m s.
Proof.
  induction n as [|n IH]; intros m s Hn Hm.
  - destruct (waitingPool s) as [|a l] eqn:E; [|simpl in Hn; lia].
    destruct m; simpl; [done|]. by rewrite E.
  - destruct m as [|m].
    + destruct (waitingPool s) as [|a l] eqn:E; [|simpl in Hm; lia].
      simpl. by rewrite E.
    + simpl. destruct (waitingPool s) as [|a [|b rest]] eqn:E; [done..|].
      simpl in Hn, Hm.
      destruct (not_searching (users s !! a)).
      { apply IH; simpl; pose proof (unshift_truthy_length b rest); lia. }
      destruct (not_searching (users s !! b)).
      { apply IH; simpl; pose proof (unshift_truthy_length a rest); lia. }
      rewrite (IH m); [done|simpl; lia..].
Qed.

Lemma tryMatch_loop_S n s :
  tryMatch_loop (S n) s =
  match waitingPool s with
  | user1Id :: user2Id :: rest =>
    if not_searching (users s !! user1Id) then
      tryMatch_loop n (set_pool (λ _, unshift_truthy user2Id rest) s)
    else if not_searching (users s !! user2Id) then
      tryMatch_loop n (set_pool (λ _, unshift_truthy user1Id rest) s)
    else
      let '(s', out) := tryMatch_loop n (pair_up s user1Id user2Id rest) in
      (s', match_emits s user1Id user2Id ++ out)
  | _ => (s, [])
  end.
Proof. reflexivity. Qed.

(** [tryMatch] as the loop reads: test, body, and again. *)
Lemma tryMatch_unfold s :
  tryMatch s =
  match waitingPool s with
  | user1Id :: user2Id :: rest =>
    if not_searching (users s !! user1Id) then
      tryMatch (set_pool (λ _, unshift_truthy user2Id rest) s)
    else if not_searching (users s !! user2Id) then
      tryMatch (set_pool (λ _, unshift_truthy user1Id rest) s)
    else
      let '(s', out) := tryMatch (pair_up s user1Id user2Id rest) in
      (s', match_emits s user1Id user2Id ++ out)
  | _ => (s, [])
  end.
Proof.
  unfold tryMatch at 1.
  destruct (waitingPool s) as [|a [|b rest]] eqn:E.
  - reflexivity.
  - change (length [a]) with 1. by rewrite tryMatch_loop_S, E.
  - change (length (a :: b :: rest)) with (S (S (length rest))).
    rewrite tryMatch_loop_S, E.
    pose proof (unshift_truthy_length a rest).
    pose proof (unshift_truthy_length b rest).
    destruct (not_searching (users s !! a)).
    { unfold tryMatch. apply tryMatch_loop_fuel; cbn [waitingPool set_pool]; lia. }
    destruct (not_searching (users s !! b)).
    { unfold tryMatch. apply tryMatch_loop_fuel; cbn [waitingPool set_pool]; lia. }
    unfold tryMatch.
    rewrite (tryMatch_loop_fuel (S (length rest))
               (length (waitingPool (pair_up s a b rest))));
      [done|cbn [waitingPool pair_up]; lia..].
Qed.

(** Induction along the iterations of the loop. *)
Lemma tryMatch_ind (P : State → State * list Effect → Prop) :
  (∀ s, length (waitingPool s) < 2 → P s (s, [])) →
  (∀ s a b rest, waitingPool s = a :: b :: rest →
     not_searching (users s !! a) = true →
     let s1 := set_pool (λ _, unshift_truthy b rest) s in
     P s1 (tryMatch s1) → P s (tryMatch s1)) →
  (∀ s a b rest, waitingPool s = a :: b :: rest →
     not_searching (users s !! a) = false →
     not_searching (users s !! b) = true →
     let s1 := set_pool (λ _, unshift_truthy a rest) s in
     P s1 (tryMatch s1) → P s (tryMatch s1)) →
  (∀ s a b rest, waitingPool s = a :: b :: rest →
     not_searching (users s !! a) = false →
     not_searching (users s !! b) = false →
     let s1 := pair_up s a b rest in
     P s1 (tryMatch s1) →
     P s ((tryMatch s1).1, match_emits s a b ++ (tryMatch s1).2)) →
  ∀ s, P s (tryMatch s).
Proof.
  intros Hexit Hstale1 Hstale2 Hpair s.
  remember (length (waitingPool s)) as n eqn:Hn.
  revert s Hn. induction (lt_wf n) as [n _ IH]. intros s ->.
  rewrite tryMatch_unfold.
  destruct (waitingPool s) as [|a [|b rest]] eqn:E.
  - apply Hexit. rewrite E. simpl. lia.
  - apply Hexit. rewrite E. simpl. lia.
  - destruct (not_searching (users s !! a)) eqn:Ea.
    { eapply Hstale1; [done..|].
      eapply IH; [|done]. simpl. pose proof (unshift_truthy_length b rest). lia. }
    destruct (not_searching (users s !! b)) eqn:Eb.
    { eapply Hstale2; [done..|].
      eapply IH; [|done]. simpl. pose proof (unshift_truthy_length a rest). lia. }
    specialize (Hpair s a b rest E Ea Eb). simpl in Hpair.
    destruct (tryMatch (pair_up s a b rest)) as [s' out] eqn:Et.
    simpl in Hpair. apply Hpair. rewrite <- Et.
    eapply IH; [|done]. simpl. lia.
Qed.

(** The loop is left with its condition false. *)
Lemma tryMatch_exit s : length (waitingPool (tryMatch s).1) < 2.
Proof.
  apply (tryMatch_ind (λ _ r, length (waitingPool r.1) < 2)); simpl; auto.
Qed.

(** With less than two entries in the pool the loop is not entered. *)
Lemma tryMatch_short s : length (waitingPool s) < 2 → tryMatch s = (s, []).
Proof.
  intros Hlen. rewrite tryMatch_unfold.
  destruct (waitingPool s) as [|a [|b rest]]; [done..|simpl in Hlen; lia].
Qed.

(** The loop invents no pool entry and keeps the order of those it leaves. *)
Lemma tryMatch_sublist s : waitingPool (tryMatch s).1 `sublist_of` waitingPool s.
Proof.
  apply (tryMatch_ind (λ s r, waitingPool r.1 `sublist_of` waitingPool s)); simpl.
  - done.
  - intros s0 a b rest E _ H. rewrite E. etrans; [exact H|]. apply unshift_truthy_sublist.
  - intros s0 a b rest E _ _ H. rewrite E. etrans; [exact H|]. apply unshift_truthy_sublist'.
  - intros s0 a b rest E _ _ H. rewrite E. etrans; [exact H|]. by do 2 apply sublist_cons.
Qed.

(** The loop neither creates nor destroys a [User]. *)
Lemma tryMatch_users_dom s x :
  is_Some (users (tryMatch s).1 !! x) ↔ is_Some (users s !! x).
Proof.
  apply (tryMatch_ind (λ s r, is_Some (users r.1 !! x) ↔ is_Some (users s !! x))); simpl.
  - done.
  - done.
  - done.
  - intros s0 a b rest _ _ _ ->.
    rewrite !lookup_alter_is_Some. done.
Qed.

(** ** The pool operations *)

Lemma splice_out_cons x y l :
  splice_out x (y :: l) = if bool_decide (y = x) then l else y :: splice_out x l.
Proof.
  unfold splice_out. simpl. case_bool_decide; [done|].
  by destruct (indexOf x l).
Qed.

Lemma splice_out_sublist x l : splice_out x l `sublist_of` l.
Proof.
  induction l as [|y l IH]; [done|].
  rewrite splice_out_cons. case_bool_decide.
  - by apply sublist_cons.
  - by apply sublist_skip.
Qed.

Lemma splice_out_absent x l : x ∉ l → splice_out x l = l.
Proof.
  induction l as [|y l IH]; [done|]. intros H.
  rewrite splice_out_cons. apply not_elem_of_cons in H as [? ?].
  rewrite bool_decide_eq_false_2 by done. by rewrite IH.
Qed.

(** Taking one occurrence out takes all of them out when there is no other. *)
Lemma splice_out_NoDup x l : NoDup l → x ∉ splice_out x l.
Proof.
  induction 1 as [|y l Hy Hl IH]; [by apply not_elem_of_nil|].
  rewrite splice_out_cons. case_bool_decide; [by subst|].
  apply not_elem_of_cons. split; [done|]. exact IH.
Qed.

Lemma short_NoDup (l : list string) : length l ≤ 1 → NoDup l.
Proof.
  destruct l as [|a [|b l]]; simpl; intros; [constructor| |lia].
  apply NoDup_singleton.
Qed.

Lemma elem_of_push_absent x y l : x ∈ push_absent y l ↔ x = y ∨ x ∈ l.
Proof.
  unfold push_absent, includes. case_bool_decide.
  - split; [by right|]. by intros [->|?].
  - rewrite elem_of_app, list_elem_of_singleton. tauto.
Qed.

Lemma elem_of_unshift_absent x y l : x ∈ unshift_absent y l ↔ x = y ∨ x ∈ l.
Proof.
  unfold unshift_absent, includes. case_bool_decide.
  - split; [by right|]. by intros [->|?].
  - by rewrite elem_of_cons.
Qed.

Lemma find_other_ne room socketId p : find_other room socketId = Some p → p ≠ socketId.
Proof.
  unfold find_other. destruct (room_users room) as [a b].
  repeat case_bool_decide; intros [= <-]; done.
Qed.

Lemma find_other_member room socketId p :
  find_other room socketId = Some p → p = (room_users room).1 ∨ p = (room_users room).2.
Proof.
  unfold find_other. destruct (room_users room) as [a b].
  repeat case_bool_decide; intros [= <-]; auto.
Qed.

Lemma find_partner_Some room socketId p :
  find_partner room socketId = Some p ↔
  find_other room socketId = Some p ∧ truthy p = true.
Proof.
  unfold find_partner. destruct (find_other room socketId) as [q|]; simpl.
  - destruct (truthy q) eqn:E; split.
    + intros [= ->]. done.
    + by intros [? _].
    + done.
    + intros [[= ->] ?]. congruence.
  - split; [done|]. by intros [? _].
Qed.

Lemma find_partner_ne room socketId p : find_partner room socketId = Some p → p ≠ socketId.
Proof. rewrite find_partner_Some. intros [H _]. by eapply find_other_ne. Qed.

Lemma then_tryMatch_fst r : (then_tryMatch r).1 = (tryMatch r.1).1.
Proof. unfold then_tryMatch. by destruct (tryMatch r.1). Qed.

Lemma then_tryMatch_snd r : (then_tryMatch r).2 = r.2 ++ (tryMatch r.1).2.
Proof. unfold then_tryMatch. by destruct (tryMatch r.1). Qed.

(** ** The pool between two events *)

Lemma tryMatch_pool_inv s : pool_live s → pool_inv (tryMatch s).1.
Proof.
  intros H. split.
  - pose proof (tryMatch_exit s). lia.
  - intros x Hx. apply tryMatch_users_dom, H.
    eapply elem_of_sublist; [done|apply tryMatch_sublist].
Qed.

Lemma paired_with_Some s socketId r p :
  paired_with s socketId = Some (r, p) ↔
  ∃ user room, users s !! socketId = Some user ∧ live_room s user = Some (r, room)
               ∧ find_partner room socketId = Some p.
Proof.
  unfold paired_with. split.
  - destruct (users s !! socketId) as [user|]; simpl; [|done].
    destruct (live_room s user) as [[r' room]|] eqn:E1; simpl; [|done].
    destruct (find_partner room socketId) as [q|] eqn:E2; simpl; [|done].
    intros [= -> ->]. by exists user, room.
  - intros (user & room & -> & E1 & E2). simpl. rewrite E1. simpl. by rewrite E2.
Qed.

Lemma start_searching_pool_inv s socketId p :
  pool_inv s → pool_inv (start_searching s socketId p).1.
Proof.
  intros [Hlen Hlive]. unfold start_searching.
  destruct (users s !! socketId) as [user|] eqn:Eu; [|done].
  destruct (_ || _); [|done].
  rewrite then_tryMatch_fst. apply tryMatch_pool_inv. simpl.
  intros x Hx. simpl in *. rewrite lookup_alter_is_Some.
  apply elem_of_push_absent in Hx as [->|Hx]; [by rewrite Eu|by apply Hlive].
Qed.

Lemma stop_searching_pool_inv s socketId :
  pool_inv s → pool_inv (stop_searching s socketId).1.
Proof.
  intros [Hlen Hlive]. unfold stop_searching.
  destruct (users s !! socketId) as [user|] eqn:Eu; [|done].
  destruct (bool_decide _); [|done].
  pose proof (splice_out_sublist socketId (waitingPool s)) as Hsub.
  split; simpl.
  - apply sublist_length in Hsub. lia.
  - intros x Hx. simpl in *. rewrite lookup_alter_is_Some.
    apply Hlive. by eapply elem_of_sublist.
Qed.

Lemma skip_chat_pool_inv s socketId : pool_inv s → pool_inv (skip_chat s socketId).1.
Proof.
  intros [Hlen Hlive]. unfold skip_chat.
  destruct (paired_with s socketId) as [[r p]|] eqn:Ep; [|done].
  apply paired_with_Some in Ep as (user & room & Eu & _ & _).
  rewrite then_tryMatch_fst. apply tryMatch_pool_inv.
  unfold skip_chat_cleanup.
  destruct (users s !! p) as [partner|] eqn:Epa; simpl; intros x Hx; simpl in *.
  - rewrite !lookup_alter_is_Some.
    apply elem_of_unshift_absent in Hx as [->|Hx]; [by rewrite Epa|].
    apply elem_of_push_absent in Hx as [->|Hx]; [by rewrite Eu|by apply Hlive].
  - rewrite !lookup_alter_is_Some.
    apply elem_of_push_absent in Hx as [->|Hx]; [by rewrite Eu|by apply Hlive].
Qed.

Lemma stop_chat_pool_inv s socketId : pool_inv s → pool_inv (stop_chat s socketId).1.
Proof.
  intros [Hlen Hlive]. unfold stop_chat.
  destruct (paired_with s socketId) as [[r p]|] eqn:Ep; [|done].
  rewrite then_tryMatch_fst. apply tryMatch_pool_inv.
  unfold stop_chat_cleanup.
  destruct (users s !! p) as [partner|] eqn:Epa; simpl; intros x Hx; simpl in *.
  - rewrite !lookup_alter_is_Some.
    apply elem_of_unshift_absent in Hx as [->|Hx]; [by rewrite Epa|by apply Hlive].
  - rewrite !lookup_alter_is_Some. by apply Hlive.
Qed.

Lemma report_guard_Some s socketId partnerId user partner r :
  report_guard s socketId partnerId = Some (user, partner, r) ↔
  users s !! socketId = Some user ∧ users s !! partnerId = Some partner ∧
  state user = IN_CHAT ∧ roomId user = Some r ∧ truthy r = true ∧
  truthy_opt (persistentId user) = true ∧ truthy_opt (persistentId partner) = true.
Proof.
  unfold report_guard. split.
  - destruct (users s !! socketId) as [u|] eqn:Eu; simpl; [|done].
    destruct (users s !! partnerId) as [q|] eqn:Eq; simpl; [|done].
    case_bool_decide; simpl; [|done].
    destruct (roomId u) as [r'|] eqn:Er; simpl; [|done].
    destruct (truthy r') eqn:Etr; simpl; [|done].
    destruct (truthy_opt (persistentId u)) eqn:E1; simpl; [|done].
    destruct (truthy_opt (persistentId q)) eqn:E2; simpl; [|done].
    intros [= <- <- <-]. by rewrite Er.
  - intros (-> & -> & Est & Er & Etr & E1 & E2). simpl.
    rewrite bool_decide_eq_true_2 by done. rewrite Er. simpl.
    by rewrite Etr, E1, E2.
Qed.

Lemma initiate_report_pool_inv s socketId partnerId sc log :
  pool_inv s → pool_inv (initiate_report s socketId partnerId sc log).1.
Proof.
  intros [Hlen Hlive]. unfold initiate_report.
  destruct (report_guard s socketId partnerId) as [[[user partner] r]|] eqn:Eg; [|done].
  apply report_guard_Some in Eg as (Eu & Epa & _).
  destruct (then_tryMatch _) as [s' out] eqn:Et. simpl.
  change s' with (s', out).1. rewrite <- Et, then_tryMatch_fst.
  apply tryMatch_pool_inv. intros x Hx. simpl in *.
  rewrite !lookup_alter_is_Some.
  apply elem_of_unshift_absent in Hx as [->|Hx]; [by rewrite Epa|by apply Hlive].
Qed.

(** [handleDisconnect] by cases: what it returns on each of its paths. *)
Lemma handleDisconnect_cases s socketId :
  let s1 := set_pool (splice_out socketId) s in
  (users s !! socketId = None ∧ handleDisconnect s socketId = (s, []))
  ∨ (∃ user, users s !! socketId = Some user ∧ live_room s1 user = None ∧
       handleDisconnect s socketId = (set_users (delete socketId) s1, []))
  ∨ (∃ user r room, users s !! socketId = Some user ∧
       live_room s1 user = Some (r, room) ∧ find_partner room socketId = None ∧
       handleDisconnect s socketId =
         (set_users (delete socketId) (set_rooms (delete r) s1), []))
  ∨ (∃ user r room p, users s !! socketId = Some user ∧
       live_room s1 user = Some (r, room) ∧ find_partner room socketId = Some p ∧
       users s !! p = None ∧
       handleDisconnect s socketId =
         (set_users (delete socketId) (set_rooms (delete r) s1),
          [emit p partner_disconnected]))
  ∨ (∃ user r room p, users s !! socketId = Some user ∧
       live_room s1 user = Some (r, room) ∧ find_partner room socketId = Some p ∧
       is_Some (users s !! p) ∧
       handleDisconnect s socketId =
         (set_users (delete socketId)
            (set_rooms (delete r) (tryMatch (disconnect_requeue s1 p).1).1),
          emit p partner_disconnected :: emit p auto_searching
            :: (tryMatch (disconnect_requeue s1 p).1).2)).
Proof.
  intros s1. unfold handleDisconnect. fold s1.
  destruct (users s !! socketId) as [user|] eqn:Eu; [right|by left].
  destruct (live_room s1 user) as [[r room]|] eqn:El; [right|left; by exists user].
  destruct (find_partner room socketId) as [p|] eqn:Ef;
    [right|left; by exists user, r, room].
  change (users s1 !! p) with (users s !! p).
  destruct (users s !! p) as [partner|] eqn:Ep.
  - right. exists user, r, room, p. split_and!; [done|done|done|by eexists|].
    unfold then_tryMatch. by destruct (tryMatch _).
  - left. by exists user, r, room, p.
Qed.

Lemma handleDisconnect_pool_inv s socketId :
  pool_inv s → pool_inv (handleDisconnect s socketId).1.
Proof.
  intros [Hlen Hlive].
  pose proof (splice_out_sublist socketId (waitingPool s)) as Hsub.
  pose proof (splice_out_NoDup socketId _ (short_NoDup _ Hlen)) as Hout.
  assert (Hquiet : ∀ f,
    pool_inv (set_users (delete socketId)
                (set_rooms f (set_pool (splice_out socketId) s)))).
  { intros f. split; simpl.
    - apply sublist_length in Hsub. lia.
    - intros x Hx. simpl in *. rewrite lookup_delete_is_Some. split.
      + intros ->. done.
      + apply Hlive. by eapply elem_of_sublist. }
  destruct (handleDisconnect_cases s socketId)
    as [[_ ->]|[(user & _ & _ & ->)|[(user & r & room & _ & _ & _ & ->)
       |[(user & r & room & p & _ & _ & _ & _ & ->)
        |(user & r & room & p & Eu & _ & Ef & Ep & ->)]]]].
  - by split.
  - apply (Hquiet (λ m, m)).
  - apply Hquiet.
  - apply Hquiet.
  - apply find_partner_ne in Ef.
    set (s2 := (disconnect_requeue (set_pool (splice_out socketId) s) p).1).
    assert (Hpre : ∀ x, x ∈ waitingPool s2 → x ≠ socketId ∧ is_Some (users s2 !! x)).
    { intros x Hx. simpl in *. rewrite lookup_alter_is_Some.
      apply elem_of_cons in Hx as [->|Hx]; [done|]. split.
      - intros ->. done.
      - apply Hlive. by eapply elem_of_sublist. }
    split; simpl.
    + pose proof (tryMatch_exit s2). lia.
    + intros x Hx. simpl in *.
      pose proof (elem_of_sublist _ _ _ Hx (tryMatch_sublist s2)) as Hx'.
      apply Hpre in Hx' as [Hne Hsome].
      rewrite lookup_delete_is_Some. split; [done|].
      by apply tryMatch_users_dom.
Qed.

Lemma step_pool_inv s e : pool_inv s → pool_inv (step s e).1.
Proof.
  intros H. destruct e; simpl.
  - destruct H as [Hlen Hlive]. split; [done|].
    intros x Hx. simpl. rewrite lookup_insert_is_Some.
    destruct (decide (socketId = x)); [by left|right]. split; [done|]. by apply Hlive.
  - by apply start_searching_pool_inv.
  - by apply stop_searching_pool_inv.
  - by apply skip_chat_pool_inv.
  - by apply stop_chat_pool_inv.
  - done.
  - done.
  - done.
  - unfold chat_message_handler.
    destruct (users s !! socketId); [|done]. by destruct (_ && _).
  - by apply initiate_report_pool_inv.
  - done.
  - by apply handleDisconnect_pool_inv.
Qed.

Lemma run_snoc s es e : run s (es ++ [e]) = (step (run s es) e).1.
Proof. unfold run. by rewrite foldl_app. Qed.

(** Whatever the events were, between two of them the pool holds one entry
    at most, and it is the identifier of a [User] of the registry. *)
Lemma run_pool_inv es : pool_inv (run init es).
Proof.
  induction es as [|e es IH] using rev_ind.
  - split; simpl; [lia|]. intros x Hx. by apply elem_of_nil in Hx.
  - rewrite run_snoc. by apply step_pool_inv.
Qed.

(** In particular no identifier is twice in the pool between two events. *)
Lemma run_pool_NoDup es : NoDup (waitingPool (run init es)).
Proof. apply short_NoDup, run_pool_inv. Qed.

(** ** The registry of users along a step *)

Lemma step_users_keep s e x :
  is_Some (users s !! x) → x ∉ disconnected e → is_Some (users (step s e).1 !! x).
Proof.
  intros Hx Hne. destruct e; simpl.
  - rewrite lookup_insert_is_Some. destruct (decide (socketId = x)); auto.
  - unfold start_searching. destruct (users s !! socketId); [|done].
    destruct (_ || _); [|done].
    rewrite then_tryMatch_fst. apply tryMatch_users_dom. simpl.
    by rewrite lookup_alter_is_Some.
  - unfold stop_searching. destruct (users s !! socketId); [|done].
    destruct (bool_decide _); [|done]. simpl. by rewrite lookup_alter_is_Some.
  - unfold skip_chat. destruct (paired_with s socketId) as [[r p]|]; [|done].
    rewrite then_tryMatch_fst. apply tryMatch_users_dom.
    unfold skip_chat_cleanup. destruct (users s !! p); simpl;
      by rewrite !lookup_alter_is_Some.
  - unfold stop_chat. destruct (paired_with s socketId) as [[r p]|]; [|done].
    rewrite then_tryMatch_fst. apply tryMatch_users_dom.
    unfold stop_chat_cleanup. destruct (users s !! p); simpl;
      by rewrite !lookup_alter_is_Some.
  - done.
  - done.
  - done.
  - unfold chat_message_handler. destruct (users s !! socketId); [|done].
    by destruct (_ && _).
  - unfold initiate_report.
    destruct (report_guard s socketId partnerId) as [[[user partner] r]|]; [|done].
    destruct (then_tryMatch _) as [s' out] eqn:Et. simpl.
    change s' with (s', out).1. rewrite <- Et, then_tryMatch_fst.
    apply tryMatch_users_dom. simpl. by rewrite !lookup_alter_is_Some.
  - done.
  - simpl in Hne. apply not_elem_of_singleton in Hne.
    destruct (handleDisconnect_cases s socketId)
      as [[_ ->]|[(user & _ & _ & ->)|[(user & r & room & _ & _ & _ & ->)
         |[(user & r & room & p & _ & _ & _ & _ & ->)
          |(user & r & room & p & _ & _ & _ & _ & ->)]]]]; simpl;
      rewrite ?lookup_delete_is_Some; try done.
    split; [done|]. apply tryMatch_users_dom. simpl.
    by rewrite lookup_alter_is_Some.
Qed.

(** When [handleDisconnect] comes to [users.delete(socketId)], the pool has
    no entry for [socketId] any more. *)
Lemma handleDisconnect_order s socketId :
  length (waitingPool s) ≤ 1 →
  users s !! socketId = None ∨
  ∃ s', (handleDisconnect s socketId).1 = set_users (delete socketId) s'
        ∧ socketId ∉ waitingPool s'.
Proof.
  intros Hlen.
  pose proof (splice_out_NoDup socketId _ (short_NoDup _ Hlen)) as Hout.
  destruct (handleDisconnect_cases s socketId)
    as [[? _]|[(user & _ & _ & ->)|[(user & r & room & _ & _ & _ & ->)
       |[(user & r & room & p & _ & _ & _ & _ & ->)
        |(user & r & room & p & _ & _ & Ef & _ & ->)]]]]; [by left|right..].
  - by eexists.
  - by eexists.
  - by eexists.
  - eexists. split; [done|]. simpl. intros Hin.
    pose proof (elem_of_sublist _ _ _ Hin (tryMatch_sublist _)) as Hin'.
    simpl in Hin'. apply elem_of_cons in Hin' as [->|Hin'].
    + by apply find_partner_ne in Ef.
    + done.
Qed.

(** C9.  Between two event handlers every identifier in the Waiting Pool is
    a key of the Connection Registry.  Only the disconnect of a connection
    destroys its [User]: every other key is kept by every event.  And the
    disconnect handler has taken the identifier out of the pool when it
    destroys the record, so that after it the identifier is in neither. *)
Theorem pool_never_names_a_vanished_user (es : list Event) :
  let s := run init es in
  Forall (λ x, is_Some (users s !! x)) (waitingPool s)
  ∧ (∀ e, dom (users s) ∖ disconnected e ⊆ dom (users (step s e).1))
  ∧ (∀ socketId,
       (users s !! socketId = None ∨
        (∃ s', (handleDisconnect s socketId).1 = set_users (delete socketId) s'
               ∧ socketId ∉ waitingPool s'))
       ∧ (socketId ∉ waitingPool (step s (Disconnect socketId)).1)
       ∧ users (step s (Disconnect socketId)).1 !! socketId = None).
Proof.
  intros s. pose proof (run_pool_inv es) as [Hlen Hlive]. fold s in Hlen, Hlive.
  split_and!.
  - apply Forall_forall. exact Hlive.
  - intros e x [Hx Hne]%elem_of_difference.
    apply elem_of_dom. apply step_users_keep; [|done]. by apply elem_of_dom.
  - intros socketId. split_and!.
    + by apply handleDisconnect_order.
    + simpl. intros Hin.
      destruct (handleDisconnect_order s socketId Hlen) as [Hn|(s' & Heq & Hnot)].
      * unfold handleDisconnect in Hin. rewrite Hn in Hin. simpl in Hin.
        apply Hlive in Hin. rewrite Hn in Hin. by destruct Hin.
      * rewrite Heq in Hin. done.
    + simpl.
      destruct (handleDisconnect_cases s socketId)
        as [[? ->]|[(user & _ & _ & ->)|[(user & r & room & _ & _ & _ & ->)
           |[(user & r & room & p & _ & _ & _ & _ & ->)
            |(user & r & room & p & _ & _ & _ & _ & ->)]]]]; simpl;
        [done|by rewrite lookup_delete_eq..].
Qed.

(** ** Room identifiers *)

Lemma uuidv4_inj n m : uuidv4 n = uuidv4 m → n = m.
Proof.
  unfold uuidv4. cbn [String.append]. intros [= H].
  change (pretty n = pretty m) in H. by apply (inj pretty) in H.
Qed.

Lemma uuidv4_truthy n : truthy (uuidv4 n) = true.
Proof. reflexivity. Qed.

Lemma tryMatch_next_uuid s : next_uuid s ≤ next_uuid (tryMatch s).1.
Proof.
  apply (tryMatch_ind (λ s r, next_uuid s ≤ next_uuid r.1)); simpl; auto.
  intros; lia.
Qed.

(** The loop leaves alone every room but the ones it creates. *)
Lemma tryMatch_rooms_other s key :
  (∀ n, next_uuid s ≤ n → key ≠ uuidv4 n) →
  rooms (tryMatch s).1 !! key = rooms s !! key.
Proof.
  apply (tryMatch_ind (λ s r, (∀ n, next_uuid s ≤ n → key ≠ uuidv4 n) →
                              rooms r.1 !! key = rooms s !! key)); simpl; auto.
  intros s0 a b rest _ _ _ IH Hkey.
  rewrite IH.
  - apply lookup_insert_ne. intros E. by apply (Hkey (next_uuid s0)).
  - intros n Hn. apply Hkey. lia.
Qed.

Lemma pair_up_uuid_fresh s a b rest : uuid_fresh s → uuid_fresh (pair_up s a b rest).
Proof.
  intros H n Hn. simpl in *. rewrite lookup_insert_ne.
  - apply H. lia.
  - intros E. apply uuidv4_inj in E. lia.
Qed.

Lemma tryMatch_uuid_fresh s : uuid_fresh s → uuid_fresh (tryMatch s).1.
Proof.
  apply (tryMatch_ind (λ s r, uuid_fresh s → uuid_fresh r.1)); simpl; auto.
  intros s0 a b rest _ _ _ IH H. by apply IH, pair_up_uuid_fresh.
Qed.

(** The loop leaves alone every [User] that is in a chat. *)
Lemma tryMatch_users_in_chat s x u :
  users s !! x = Some u → state u = IN_CHAT → users (tryMatch s).1 !! x = Some u.
Proof.
  apply (tryMatch_ind (λ s r, users s !! x = Some u → state u = IN_CHAT →
                              users r.1 !! x = Some u)); simpl; auto.
  intros s0 a b rest _ Ha Hb IH Hx Hst. apply IH; [|done].
  assert (Hxa : x ≠ a).
  { intros ->. rewrite Hx in Ha. simpl in Ha. apply negb_false_iff in Ha.
    apply bool_decide_eq_true in Ha. congruence. }
  assert (Hxb : x ≠ b).
  { intros ->. rewrite Hx in Hb. simpl in Hb. apply negb_false_iff in Hb.
    apply bool_decide_eq_true in Hb. congruence. }
  by rewrite !lookup_alter_ne.
Qed.

(** The [User] objects of a pairing, after the body of the loop. *)
Lemma pair_up_users s a b rest x :
  users (pair_up s a b rest) !! x =
  if bool_decide (x = a ∨ x = b)
  then enter_chat (uuidv4 (next_uuid s)) <$> users s !! x
  else users s !! x.
Proof.
  simpl. case_bool_decide as H.
  - destruct (decide (x = b)) as [->|Hb].
    + rewrite lookup_alter_eq. destruct (decide (b = a)) as [->|Ha].
      * rewrite lookup_alter_eq. by destruct (users s !! a).
      * by rewrite lookup_alter_ne.
    + destruct H as [-> | ->]; [|done].
      rewrite lookup_alter_ne by done. by rewrite lookup_alter_eq.
  - rewrite !lookup_alter_ne; [done|intros ->; tauto..].
Qed.

(** A [User] that is searching exists and has no truthy test to fail. *)
Lemma not_searching_false o :
  not_searching o = false ↔ ∃ u, o = Some u ∧ state u = SEARCHING.
Proof.
  destruct o as [u|]; simpl.
  - rewrite negb_false_iff, bool_decide_eq_true. split.
    + intros. by exists u.
    + by intros (? & [= <-] & ?).
  - split; [done|]. by intros (? & ? & _).
Qed.

(** C3.  One call of the Matchmaker, on a pool of connection identifiers
    (none is the empty string) and with a generator that returns unused
    room identifiers.  The call ends, and with less than two entries left,
    so that a second call right after it changes nothing and emits nothing.
    With less than two entries to begin with it changes nothing and emits
    nothing.  Otherwise it takes the two oldest entries.  When the first
    names no user of the registry, or one whose state is not [SEARCHING],
    the call does what it does on the pool without that entry, the second
    back at the front.  When the first names a searching user and the
    second does not, the call does what it does on the pool without the
    second entry, the first back at the front.  When both name searching
    users, a room is created under an identifier that no room had, holding
    the two in the order they were taken; the state of both users is
    [IN_CHAT] and their [roomId] that identifier, their profile and
    persistent identity being what they were, after the body of the loop
    and still when the call ends; no other user is touched by the body; the
    first is sent [match-found] with [initiator: true] and the second with
    [initiator: false], each with the profile of the other; and the call
    goes on with the rest of the pool. *)
Theorem tryMatch_contract (s : State) :
  Forall (λ x, truthy x = true) (waitingPool s) →
  uuid_fresh s →
  length (waitingPool (tryMatch s).1) < 2
  ∧ tryMatch (tryMatch s).1 = ((tryMatch s).1, [])
  ∧ (length (waitingPool s) < 2 → tryMatch s = (s, []))
  ∧ (∀ user1Id user2Id rest, waitingPool s = user1Id :: user2Id :: rest →
       let searching_user id := ∃ u, users s !! id = Some u ∧ state u = SEARCHING in
       let with_pool l := {| users := users s; waitingPool := l;
                             rooms := rooms s; next_uuid := next_uuid s |} in
       (¬ searching_user user1Id →
          tryMatch s = tryMatch (with_pool (user2Id :: rest)))
       ∧ (searching_user user1Id → ¬ searching_user user2Id →
            tryMatch s = tryMatch (with_pool (user1Id :: rest)))
       ∧ (∀ u1 u2,
            users s !! user1Id = Some u1 → state u1 = SEARCHING →
            users s !! user2Id = Some u2 → state u2 = SEARCHING →
            let room := uuidv4 (next_uuid s) in
            let in_chat u := {| state := IN_CHAT; roomId := Some room;
                                profile := profile u;
                                persistentId := persistentId u |} in
            ∃ s1,
              rooms s !! room = None
              ∧ rooms s1 = <[room := {| room_users := (user1Id, user2Id) |}]> (rooms s)
              ∧ waitingPool s1 = rest
              ∧ next_uuid s1 = S (next_uuid s)
              ∧ users s1 !! user1Id = Some (in_chat u1)
              ∧ users s1 !! user2Id = Some (in_chat u2)
              ∧ (∀ x, x ≠ user1Id → x ≠ user2Id → users s1 !! x = users s !! x)
              ∧ users (tryMatch s).1 !! user1Id = Some (in_chat u1)
              ∧ users (tryMatch s).1 !! user2Id = Some (in_chat u2)
              ∧ rooms (tryMatch s).1 !! room
                = Some {| room_users := (user1Id, user2Id) |}
              ∧ tryMatch s
                = ((tryMatch s1).1,
                   [emit user1Id (match_found room user2Id true (profile u2));
                    emit user2Id (match_found room user1Id false (profile u1))]
                   ++ (tryMatch s1).2))).
Proof.
  intros Hids Hfresh. split; [apply tryMatch_exit|].
  split; [apply tryMatch_short, tryMatch_exit|].
  split; [apply tryMatch_short|].
  intros a b rest E searching_user with_pool.
  rewrite E in Hids.
  apply Forall_cons in Hids as [Ha Hids]. apply Forall_cons in Hids as [Hb _].
  assert (Hstale : ∀ id, ¬ searching_user id → not_searching (users s !! id) = true).
  { intros id Hno. destruct (not_searching (users s !! id)) eqn:En; [done|].
    apply not_searching_false in En. by destruct Hno. }
  assert (Hvalid : ∀ id, searching_user id → not_searching (users s !! id) = false).
  { intros id Hyes. by apply not_searching_false. }
  split_and!.
  - intros Hno. rewrite (tryMatch_unfold s), E, (Hstale a Hno).
    unfold unshift_truthy. by rewrite Hb.
  - intros Hyes Hno. rewrite (tryMatch_unfold s), E, (Hvalid a Hyes), (Hstale b Hno).
    unfold unshift_truthy. by rewrite Ha.
  - intros u1 u2 Hu1 Hs1 Hu2 Hs2 room in_chat.
    assert (Hin : ∀ x u, x = a ∨ x = b → users s !! x = Some u →
              users (pair_up s a b rest) !! x = Some (in_chat u)).
    { intros x u Hx Hu. rewrite pair_up_users, bool_decide_eq_true_2 by done.
      by rewrite Hu. }
    assert (Hstep : tryMatch s
      = ((tryMatch (pair_up s a b rest)).1,
         [emit a (match_found room b true (profile u2));
          emit b (match_found room a false (profile u1))]
         ++ (tryMatch (pair_up s a b rest)).2)).
    { rewrite (tryMatch_unfold s), E.
      rewrite (Hvalid a) by (by exists u1). rewrite (Hvalid b) by (by exists u2).
      destruct (tryMatch (pair_up s a b rest)) as [s' out].
      unfold match_emits. by rewrite Hu1, Hu2. }
    exists (pair_up s a b rest). split_and!.
    + apply Hfresh. lia.
    + done.
    + done.
    + done.
    + apply Hin; auto.
    + apply Hin; auto.
    + intros x Hxa Hxb. rewrite pair_up_users, bool_decide_eq_false_2; [done|].
      intros [? | ?]; done.
    + rewrite Hstep. cbn [fst].
      apply tryMatch_users_in_chat; [apply Hin; auto|done].
    + rewrite Hstep. cbn [fst].
      apply tryMatch_users_in_chat; [apply Hin; auto|done].
    + rewrite Hstep. cbn [fst]. rewrite tryMatch_rooms_other.
      * simpl. apply lookup_insert_eq.
      * simpl. intros n Hn Heq. apply uuidv4_inj in Heq. lia.
    + exact Hstep.
Qed.

(** The contract on a pool of three: A is searching, B is idle, C is
    searching.  B is passed over with A back in front of C, and then A and
    C are paired in the first room: A is in a chat in it when the call
    ends. *)
Lemma tryMatch_contract_witness :
  Forall (λ x, truthy x = true) (waitingPool three_waiting)
  ∧ uuid_fresh three_waiting
  ∧ tryMatch three_waiting
    = tryMatch {| users := users three_waiting; waitingPool := ["A"; "C"];
                  rooms := rooms three_waiting;
                  next_uuid := next_uuid three_waiting |}
  ∧ users (tryMatch three_waiting).1 !! "A"
    = Some {| state := IN_CHAT; roomId := Some "room-0";
              profile := Some (profile_of "A");
              persistentId := Some "user-A" |}
  ∧ rooms (tryMatch three_waiting).1 !! "room-0"
    = Some {| room_users := ("A", "C") |}.
Proof.
  assert (H1 : Forall (λ x, truthy x = true) (waitingPool three_waiting))
    by (repeat constructor).
  assert (H2 : uuid_fresh three_waiting) by (intros n _; apply lookup_empty).
  destruct (tryMatch_contract three_waiting H1 H2) as (_ & _ & _ & Hstep).
  destruct (Hstep "A" "B" ["C"] eq_refl) as (_ & Hskip & _).
  assert (Hgo : tryMatch three_waiting
    = tryMatch {| users := users three_waiting; waitingPool := ["A"; "C"];
                  rooms := rooms three_waiting;
                  next_uuid := next_uuid three_waiting |}).
  { apply Hskip.
    - eexists. split; reflexivity.
    - intros (u & Hu & Hst). injection Hu as <-. discriminate Hst. }
  assert (H1' : Forall (λ x, truthy x = true) ["A"; "C"]) by (repeat constructor).
  destruct (tryMatch_contract
              {| users := users three_waiting; waitingPool := ["A"; "C"];
                 rooms := rooms three_waiting;
                 next_uuid := next_uuid three_waiting |} H1' H2)
    as (_ & _ & _ & Hstep').
  destruct (Hstep' "A" "C" [] eq_refl) as (_ & _ & Hpair).
  destruct (Hpair (begin_search (profile_of "A") new_user)
                  (begin_search (profile_of "C") new_user))
    as (s1 & _ & _ & _ & _ & _ & _ & _ & HA & _ & Hroom & _); [reflexivity..|].
  split_and!; [exact H1|exact H2|exact Hgo| |].
  - rewrite Hgo. exact HA.
  - rewrite Hgo. exact Hroom.
Defined.

(** ** The match notifications *)

Lemma tryMatch_pairings s :
  ∃ ps : list Pairing,
    (tryMatch s).2 = concat (pairing_emits <$> ps)
    ∧ Forall (pairing_of s (tryMatch s).1) ps
    ∧ pairing_room <$> ps = uuidv4 <$> seq (next_uuid s) (length ps)
    ∧ next_uuid (tryMatch s).1 = next_uuid s + length ps.
Proof.
  apply (tryMatch_ind (λ s r, ∃ ps : list Pairing,
    r.2 = concat (pairing_emits <$> ps)
    ∧ Forall (pairing_of s r.1) ps
    ∧ pairing_room <$> ps = uuidv4 <$> seq (next_uuid s) (length ps)
    ∧ next_uuid r.1 = next_uuid s + length ps)).
  - intros s0 _. exists []. simpl. split_and!; [done|constructor|done|lia].
  - intros s0 a b rest E _ s1 (ps & He & Hp & Hr & Hn). exists ps.
    split_and!; [done| |done..].
    eapply Forall_impl; [exact Hp|]. intros p [Hsub Hroom]. split; [|done].
    etrans; [exact Hsub|]. rewrite E. apply unshift_truthy_sublist.
  - intros s0 a b rest E _ _ s1 (ps & He & Hp & Hr & Hn). exists ps.
    split_and!; [done| |done..].
    eapply Forall_impl; [exact Hp|]. intros p [Hsub Hroom]. split; [|done].
    etrans; [exact Hsub|]. rewrite E. apply unshift_truthy_sublist'.
  - intros s0 a b rest E _ _ s1 (ps & He & Hp & Hr & Hn).
    exists ({| pairing_room := uuidv4 (next_uuid s0);
               popped_first := a; popped_second := b;
               first_profile := users s0 !! a ≫= profile;
               second_profile := users s0 !! b ≫= profile |} :: ps).
    cbn [fst snd]. split_and!.
    + rewrite He. reflexivity.
    + apply Forall_cons. split.
      * split; cbn [popped_first popped_second pairing_room].
        -- rewrite E. do 2 apply sublist_skip. apply sublist_nil_l.
        -- rewrite tryMatch_rooms_other.
           ++ subst s1. simpl. apply lookup_insert_eq.
           ++ subst s1. simpl. intros n Hle Heq. apply uuidv4_inj in Heq. lia.
      * eapply Forall_impl; [exact Hp|]. intros p [Hsub Hroom]. split; [|done].
        etrans; [exact Hsub|]. subst s1. rewrite E. simpl.
        by do 2 apply sublist_cons.
    + cbn [fmap list_fmap length seq pairing_room]. f_equal. exact Hr.
    + rewrite Hn. subst s1. simpl. lia.
Qed.

(** C10, as amended.  The [match-found] events of one call of the
    Matchmaker come two by two, one two for every room the call creates and
    in the order of creation: the first, with [initiator: true], goes to
    the member that was the nearer to the front of the pool when the call
    began (the first of the two the loop took), and names the other as
    partner; the second, with [initiator: false], goes to that other member
    and names the first.  So the two events of a pairing never carry the
    same flag.  Nothing is said of who has waited longer: the front of the
    pool is also where the partner of a leaver is put back. *)
Theorem match_found_initiator_is_first_popped (s : State) :
  ∃ ps : list Pairing,
    (tryMatch s).2 = concat (pairing_emits <$> ps)
    ∧ Forall (pairing_of s (tryMatch s).1) ps
    ∧ pairing_room <$> ps = uuidv4 <$> seq (next_uuid s) (length ps)
    ∧ next_uuid (tryMatch s).1 = next_uuid s + length ps.
Proof. apply tryMatch_pairings. Qed.

(** C10, as stated: the member popped first need not be the one that has
    waited longer.  Z and W are in a chat and C waits alone in the pool.
    W disconnects: Z, in a chat until then, is put at the front of the
    pool, before C, and is paired with C at once.  [initiator: true] goes
    to Z, that began to wait with this event, and [initiator: false] to C,
    that was waiting before it. *)
Lemma initiator_need_not_have_waited_longer :
  waitingPool (run init one_waiting) = ["C"]
  ∧ state <$> users (run init one_waiting) !! "Z" = Some IN_CHAT
  ∧ state <$> users (run init one_waiting) !! "C" = Some SEARCHING
  ∧ (step (run init one_waiting) (Disconnect "W")).2
    = [emit "Z" partner_disconnected; emit "Z" auto_searching;
       emit "Z" (match_found "room-1" "C" true (Some (profile_of "C")));
       emit "C" (match_found "room-1" "Z" false (Some (profile_of "Z")))]
  ∧ ¬ initiator_waited_longer (run init one_waiting) (Disconnect "W").
Proof.
  assert (Hout : (step (run init one_waiting) (Disconnect "W")).2
    = [emit "Z" partner_disconnected; emit "Z" auto_searching;
       emit "Z" (match_found "room-1" "C" true (Some (profile_of "C")));
       emit "C" (match_found "room-1" "Z" false (Some (profile_of "Z")))])
    by (vm_compute; reflexivity).
  assert (Hpool : waitingPool (run init one_waiting) = ["C"])
    by (vm_compute; reflexivity).
  split_and!; [exact Hpool|vm_compute; reflexivity..|exact Hout|].
  intros H.
  specialize (H "room-1" "Z" "C" (Some (profile_of "C"))).
  rewrite Hout, Hpool in H.
  assert (HZ : "Z" ∈ ["C"]).
  { apply H; [|apply list_elem_of_singleton; reflexivity].
    do 2 apply list_elem_of_further. apply list_elem_of_here. }
  apply list_elem_of_singleton in HZ. discriminate HZ.
Qed.

(** ** The relay *)

(** C8.  A chat message leaves the registries as they are and is forwarded
    at most once: to the named target, with the identifier of the sender,
    and then the sender is in a chat (it is forwarded exactly when the
    sender is in a chat and a target is named).  An offer, an answer and an
    ICE candidate are forwarded to the named target with the identifier of
    the sender in every state, whoever the sender is. *)
Theorem relay_gating (s : State) (socketId partnerId payload : string) :
  step s (ChatMessageEv socketId partnerId payload)
    = (s, if sender_in_chat s socketId && truthy partnerId
          then [emit partnerId (chat_message payload socketId)] else [])
  ∧ ((step s (ChatMessageEv socketId partnerId payload)).2 = []
     ∨ ((step s (ChatMessageEv socketId partnerId payload)).2
          = [emit partnerId (chat_message payload socketId)]
        ∧ state <$> users s !! socketId = Some IN_CHAT))
  ∧ step s (OfferEv socketId partnerId payload)
    = (s, [emit partnerId (offer payload socketId)])
  ∧ step s (AnswerEv socketId partnerId payload)
    = (s, [emit partnerId (answer payload socketId)])
  ∧ step s (IceCandidateEv socketId partnerId payload)
    = (s, [emit partnerId (ice_candidate payload socketId)]).
Proof.
  split_and!; try reflexivity.
  - simpl. unfold chat_message_handler, sender_in_chat.
    destruct (users s !! socketId) as [user|]; [|done].
    by destruct (_ && _).
  - simpl. unfold chat_message_handler.
    destruct (users s !! socketId) as [user|]; [|by left].
    case_bool_decide as Hst; simpl; [|by left].
    destruct (truthy partnerId); [|by left].
    right. simpl. by rewrite Hst.
Qed.

(** ** The requeue of a dissolved pairing *)

Lemma live_room_Some s user r room :
  live_room s user = Some (r, room) ↔
  state user = IN_CHAT ∧ roomId user = Some r ∧ truthy r = true
  ∧ rooms s !! r = Some room.
Proof.
  unfold live_room. split.
  - case_bool_decide; simpl; [|done].
    destruct (roomId user) as [r'|]; simpl; [|done].
    destruct (truthy r') eqn:Et; simpl; [|done].
    destruct (rooms s !! r') as [room'|] eqn:Er; simpl; [|done].
    by intros [= <- <-].
  - intros (Hst & Hr & Ht & Hroom).
    rewrite bool_decide_eq_true_2, Hr by done. simpl. rewrite Ht. simpl.
    by rewrite Hroom.
Qed.

Lemma head_unshift_absent p (l : list string) :
  (p ∈ l → head l = Some p) → head (unshift_absent p l) = Some p.
Proof.
  unfold unshift_absent, includes. case_bool_decide; [auto|done].
Qed.


Lemma short_elem_head (x : string) l : length l ≤ 1 → x ∈ l → l = [x].
Proof.
  destruct l as [|y [|z l]]; simpl; intros Hlen Hin; [|
    by apply list_elem_of_singleton in Hin as ->|lia].
  by apply elem_of_nil in Hin.
Qed.






(** ** Room identifiers in use *)

Lemma users_issued_mono n n' m : n ≤ n' → users_issued n m → users_issued n' m.
Proof.
  intros Hle H x u r Hx Hr. destruct (H x u r Hx Hr) as (k & ? & ->).
  exists k. split; [lia|done].
Qed.

Lemma users_issued_alter f key n m :
  (∀ u, roomId (f u) = None ∨ roomId (f u) = roomId u) →
  users_issued n m → users_issued n (alter f key m).
Proof.
  intros Hf H x u r Hx Hr. destruct (decide (x = key)) as [->|Hne].
  - rewrite lookup_alter_eq in Hx. destruct (m !! key) as [u0|] eqn:E; [|done].
    injection Hx as <-. destruct (Hf u0) as [Hn|He]; [congruence|].
    rewrite He in Hr. by eapply H.
  - rewrite lookup_alter_ne in Hx by done. by eapply H.
Qed.

Lemma users_issued_enter_chat key k n m :
  k < n → users_issued n m → users_issued n (alter (enter_chat (uuidv4 k)) key m).
Proof.
  intros Hk H x u r Hx Hr. destruct (decide (x = key)) as [->|Hne].
  - rewrite lookup_alter_eq in Hx. destruct (m !! key) as [u0|] eqn:E; [|done].
    injection Hx as <-. simpl in Hr. injection Hr as <-. by exists k.
  - rewrite lookup_alter_ne in Hx by done. by eapply H.
Qed.

Lemma users_issued_delete key n m : users_issued n m → users_issued n (delete key m).
Proof.
  intros H x u r Hx Hr. apply lookup_delete_Some in Hx as [_ Hx]. by eapply H.
Qed.

(** Deleting a room keeps the generator ahead of the rooms. *)
Ltac fresh_after_delete H :=
  let n := fresh "n" in let Hn := fresh "Hn" in
  intros n Hn; simpl in *; apply lookup_delete_None; right; by apply H.

Lemma tryMatch_users_issued s :
  users_issued (next_uuid s) (users s) →
  users_issued (next_uuid (tryMatch s).1) (users (tryMatch s).1).
Proof.
  apply (tryMatch_ind (λ s r, users_issued (next_uuid s) (users s) →
           users_issued (next_uuid r.1) (users r.1))); simpl; auto.
  intros s0 a b rest _ _ _ IH H. apply IH.
  do 2 (apply users_issued_enter_chat; [lia|]).
  eapply users_issued_mono; [|exact H]. lia.
Qed.

Lemma tryMatch_ids_issued s : ids_issued s → ids_issued (tryMatch s).1.
Proof.
  intros [H1 H2]. split; [by apply tryMatch_uuid_fresh|by apply tryMatch_users_issued].
Qed.

Lemma clears_roomId_to_searching u :
  roomId (to_searching u) = None ∨ roomId (to_searching u) = roomId u.
Proof. by left. Qed.

Lemma clears_roomId_to_idle u :
  roomId (to_idle u) = None ∨ roomId (to_idle u) = roomId u.
Proof. by left. Qed.

Lemma step_ids_issued s e : ids_issued s → ids_issued (step s e).1.
Proof.
  intros [Hf Hu]. destruct e; simpl; try by split.
  - split; [done|]. simpl. intros x u r Hx Hr.
    apply lookup_insert_Some in Hx as [[_ <-]|[_ Hx]]; [done|]. by eapply Hu.
  - unfold start_searching. destruct (users s !! socketId); [|by split].
    destruct (_ || _); [|by split].
    rewrite then_tryMatch_fst. apply tryMatch_ids_issued. split; [done|]. simpl.
    apply users_issued_alter; [intros ?; by right|done].
  - unfold stop_searching. destruct (users s !! socketId); [|by split].
    destruct (bool_decide _); [|by split]. split; [done|]. simpl.
    apply users_issued_alter; [intros ?; by right|done].
  - unfold skip_chat. destruct (paired_with s socketId) as [[r p]|]; [|by split].
    rewrite then_tryMatch_fst. apply tryMatch_ids_issued.
    unfold skip_chat_cleanup. destruct (users s !! p); simpl.
    + split; [fresh_after_delete Hf|]. simpl.
      do 2 (apply users_issued_alter; [apply clears_roomId_to_searching|]). done.
    + split; [fresh_after_delete Hf|]. simpl.
      apply users_issued_alter; [apply clears_roomId_to_searching|]. done.
  - unfold stop_chat. destruct (paired_with s socketId) as [[r p]|]; [|by split].
    rewrite then_tryMatch_fst. apply tryMatch_ids_issued.
    unfold stop_chat_cleanup. destruct (users s !! p); simpl.
    + split; [fresh_after_delete Hf|]. simpl.
      apply users_issued_alter; [apply clears_roomId_to_searching|].
      apply users_issued_alter; [apply clears_roomId_to_idle|]. done.
    + split; [fresh_after_delete Hf|]. simpl.
      apply users_issued_alter; [apply clears_roomId_to_idle|]. done.
  - unfold chat_message_handler. destruct (users s !! socketId); [|by split].
    by destruct (_ && _).
  - unfold initiate_report.
    destruct (report_guard s socketId partnerId) as [[[user partner] r]|]; [|by split].
    destruct (then_tryMatch _) as [s' out] eqn:Et. simpl.
    change s' with (s', out).1. rewrite <- Et, then_tryMatch_fst.
    apply tryMatch_ids_issued. split; [fresh_after_delete Hf|]. simpl.
    apply users_issued_alter; [apply clears_roomId_to_searching|].
    apply users_issued_alter; [apply clears_roomId_to_idle|]. done.
  - destruct (handleDisconnect_cases s socketId)
      as [[_ ->]|[(user & _ & _ & ->)|[(user & r & room & _ & _ & _ & ->)
         |[(user & r & room & p & _ & _ & _ & _ & ->)
          |(user & r & room & p & _ & _ & _ & _ & ->)]]]]; simpl.
    + by split.
    + split; [done|]. by apply users_issued_delete.
    + split; [fresh_after_delete Hf|]. by apply users_issued_delete.
    + split; [fresh_after_delete Hf|]. by apply users_issued_delete.
    + set (s2 := set_pool (cons p) (set_users (alter to_searching p)
                   (set_pool (splice_out socketId) s))).
      assert (H2 : ids_issued s2).
      { split; [done|]. simpl.
        apply users_issued_alter; [apply clears_roomId_to_searching|done]. }
      apply tryMatch_ids_issued in H2 as [H2f H2u].
      split.
      * fresh_after_delete H2f.
      * simpl. by apply users_issued_delete.
Qed.

Lemma run_ids_issued es : ids_issued (run init es).
Proof.
  induction es as [|e es IH] using rev_ind.
  - split.
    + intros n _. apply lookup_empty.
    + intros x u r Hx. simpl in Hx. by rewrite lookup_empty in Hx.
  - rewrite run_snoc. by apply step_ids_issued.
Qed.

(** ** The report *)

(** The loop leaves alone every [User] that is not searching. *)
Lemma tryMatch_users_not_searching s x u :
  users s !! x = Some u → state u ≠ SEARCHING → users (tryMatch s).1 !! x = Some u.
Proof.
  apply (tryMatch_ind (λ s r, users s !! x = Some u → state u ≠ SEARCHING →
                              users r.1 !! x = Some u)); simpl; auto.
  intros s0 a b rest _ Ha Hb IH Hx Hst. apply IH; [|done].
  apply not_searching_false in Ha as (ua & Ha & Hsa).
  apply not_searching_false in Hb as (ub & Hb & Hsb).
  rewrite !lookup_alter_ne; [done|intros ->; congruence..].
Qed.

(** The Matchmaker emits, and does nothing else to the outside. *)
Lemma tryMatch_only_emits s : Forall (λ e, is_emit e = true) (tryMatch s).2.
Proof.
  destruct (tryMatch_pairings s) as (ps & -> & _).
  induction ps as [|p ps IH]; simpl; [constructor|].
  by repeat apply Forall_cons_2.
Qed.

(** C7.  An [initiate-report] that passes the test of the handler, in a
    state the engine can be in.  The cleanup deletes the room of the
    reporter, makes the reported user searching, without a room and first in
    the pool, and makes the reporter idle and without a room; the Matchmaker
    runs on that state; and only then, as the last thing the handler does
    before it waits, the report function is called: in the state the handler
    waits in, the room is gone and the reporter idle.  When the call has
    failed, the one thing that follows is [report-failed] to the reporting
    connection: the state is what it was. *)
Theorem report_cleanup_precedes_call
    (es : list Event) (socketId partnerId screenshot chatLog : string)
    (user partner : User) (r : string) :
  let s := run init es in
  report_guard s socketId partnerId = Some (user, partner, r) →
  let s1 := (report_cleanup s socketId partnerId r).1 in
  let at_await := (step s (InitiateReport socketId partnerId screenshot chatLog)).1 in
  (rooms s1 !! r = None
   ∧ users s1 !! partnerId ≫= roomId = None
   ∧ state <$> users s1 !! partnerId = Some SEARCHING
   ∧ head (waitingPool s1) = Some partnerId)
  ∧ step s (InitiateReport socketId partnerId screenshot chatLog)
    = ((tryMatch s1).1,
       [emit partnerId partner_disconnected; emit socketId partner_disconnected;
        emit partnerId auto_searching]
       ++ (tryMatch s1).2
       ++ [invoke_create_report (persistentId user) (persistentId partner)
             screenshot chatLog])
  ∧ Forall (λ e, is_emit e = true) (tryMatch s1).2
  ∧ rooms at_await !! r = None
  ∧ (socketId = partnerId
     ∨ (users at_await !! socketId ≫= roomId = None
        ∧ state <$> users at_await !! socketId = Some IDLE))
  ∧ ∀ s', step s' (ReportSettled socketId false) = (s', [emit socketId report_failed]).
Proof.
  intros s Hg s1 at_await.
  pose proof (run_pool_inv es) as [Hlen _]. fold s in Hlen.
  pose proof (run_ids_issued es) as [Hfresh Hissued]. fold s in Hfresh, Hissued.
  pose proof Hg as Hg'.
  apply report_guard_Some in Hg' as (Hu & Hp & Hst & Hr & _).
  assert (Hstep : step s (InitiateReport socketId partnerId screenshot chatLog)
    = ((tryMatch s1).1,
       [emit partnerId partner_disconnected; emit socketId partner_disconnected;
        emit partnerId auto_searching]
       ++ (tryMatch s1).2
       ++ [invoke_create_report (persistentId user) (persistentId partner)
             screenshot chatLog])).
  { simpl. unfold initiate_report. rewrite Hg. unfold then_tryMatch. fold s1.
    by destruct (tryMatch s1) as [s' out]. }
  assert (Hat : at_await = (tryMatch s1).1) by (unfold at_await; by rewrite Hstep).
  split_and!.
  - subst s1. simpl. apply lookup_delete_eq.
  - subst s1. simpl. rewrite lookup_alter_eq.
    by destruct (alter to_idle socketId (users s) !! partnerId).
  - subst s1. simpl. rewrite lookup_alter_eq.
    destruct (alter to_idle socketId (users s) !! partnerId) eqn:E; [done|].
    apply lookup_alter_None in E. congruence.
  - subst s1. simpl. apply head_unshift_absent. intros Hin.
    by rewrite (short_elem_head _ _ Hlen Hin).
  - exact Hstep.
  - apply tryMatch_only_emits.
  - rewrite Hat. destruct (Hissued _ _ _ Hu Hr) as (k & Hk & ->).
    rewrite tryMatch_rooms_other.
    + subst s1. simpl. apply lookup_delete_eq.
    + subst s1. simpl. intros n Hn E. apply uuidv4_inj in E. lia.
  - destruct (decide (socketId = partnerId)) as [|Hne]; [by left|right].
    rewrite Hat.
    rewrite (tryMatch_users_not_searching s1 socketId (to_idle user)); [done| |done].
    subst s1. simpl. rewrite lookup_alter_ne by done.
    by rewrite lookup_alter_eq, Hu.
  - done.
Qed.

(** The report of W by Z, its partner, and the failure of the call. *)
Lemma report_cleanup_precedes_call_witness :
  report_guard (run init two_rooms) "Z" "W"
    = Some (enter_chat "room-0" (begin_search (profile_of "Z") new_user),
            enter_chat "room-0" (begin_search (profile_of "W") new_user),
            "room-0")
  ∧ rooms (step (run init two_rooms)
             (InitiateReport "Z" "W" "screenshot" "log")).1 !! "room-0" = None
  ∧ step (run init (two_rooms ++ [InitiateReport "Z" "W" "screenshot" "log"]))
      (ReportSettled "Z" false)
    = (run init (two_rooms ++ [InitiateReport "Z" "W" "screenshot" "log"]),
       [emit "Z" report_failed]).
Proof.
  assert (H : report_guard (run init two_rooms) "Z" "W"
    = Some (enter_chat "room-0" (begin_search (profile_of "Z") new_user),
            enter_chat "room-0" (begin_search (profile_of "W") new_user),
            "room-0")) by reflexivity.
  destruct (report_cleanup_precedes_call two_rooms "Z" "W" "screenshot" "log" _ _ _ H)
    as (_ & _ & _ & Hroom & _ & Hfail).
  split_and!; [exact H|exact Hroom|apply Hfail].
Defined.

(** ** Cleanup without a live room *)

(** C6, as amended.  For an acting user that has no live room: [skip-chat]
    and [stop-chat] return at once, with nothing changed and nothing
    emitted; [initiate-report] does so when the user is not in a chat or has
    no [roomId]; and the disconnect takes the user out of the pool and
    destroys the record, notifies no one, deletes no room and does not call
    the Matchmaker. *)
Theorem cleanup_without_live_room (s : State) (socketId : string) (user : User) :
  users s !! socketId = Some user →
  live_room s user = None →
  step s (SkipChat socketId) = (s, [])
  ∧ step s (StopChat socketId) = (s, [])
  ∧ step s (Disconnect socketId)
    = (set_users (delete socketId) (set_pool (splice_out socketId) s), [])
  ∧ (bool_decide (state user = IN_CHAT) && truthy_opt (roomId user) = true
     ∨ ∀ partnerId screenshot chatLog,
         step s (InitiateReport socketId partnerId screenshot chatLog) = (s, [])).
Proof.
  intros Hu Hroom.
  assert (Hpair : paired_with s socketId = None).
  { unfold paired_with. rewrite Hu. simpl. by rewrite Hroom. }
  split_and!.
  - simpl. unfold skip_chat. by rewrite Hpair.
  - simpl. unfold stop_chat. by rewrite Hpair.
  - simpl. unfold handleDisconnect. rewrite Hu.
    change (live_room (set_pool (splice_out socketId) s) user) with (live_room s user).
    by rewrite Hroom.
  - destruct (bool_decide (state user = IN_CHAT) && truthy_opt (roomId user)) eqn:E;
      [by left|right].
    intros partnerId screenshot chatLog. simpl. unfold initiate_report, report_guard.
    rewrite Hu. simpl. destruct (users s !! partnerId); simpl; [|done].
    by rewrite E.
Qed.

(** X, searching and without a room: its [stop-chat] does nothing, and its
    disconnect empties the pool. *)
Lemma cleanup_without_live_room_witness :
  users (run init one_searching) !! "X"
    = Some (begin_search (profile_of "X") new_user)
  ∧ step (run init one_searching) (StopChat "X") = (run init one_searching, [])
  ∧ waitingPool (step (run init one_searching) (Disconnect "X")).1 = [].
Proof.
  assert (Hu : users (run init one_searching) !! "X"
               = Some (begin_search (profile_of "X") new_user)) by reflexivity.
  destruct (cleanup_without_live_room (run init one_searching) "X" _ Hu)
    as (_ & Hstop & Hdisc & _); [reflexivity|].
  split_and!; [exact Hu|exact Hstop|].
  rewrite Hdisc. reflexivity.
Defined.

(** C6, as the specification has it, fails: X is searching and has no room;
    its [stop-chat] is ignored, X stays in the pool and stays searching. *)
Lemma stop_chat_without_room_is_ignored :
  ¬ stop_chat_still_applies (run init one_searching) "X".
Proof.
  intros H. destruct H as [Hin _].
  - eexists. split; reflexivity.
  - apply Hin. vm_compute. apply list_elem_of_here.
Qed.

(** ** The room invariant along honest runs *)

Lemma rooms_consistent_alter us rs x f :
  rooms_consistent us rs →
  (∀ u, us !! x = Some u → state u ≠ IN_CHAT) →
  (∀ u, state (f u) ≠ IN_CHAT) →
  rooms_consistent (alter f x us) rs.
Proof.
  intros [H1 H2] Hx Hf. split.
  - intros r room Hr. destruct (H1 r room Hr) as (Hne & Ha & Hb).
    split; [done|].
    split; [destruct Ha as (u & Hu & Hst & Hrid)|destruct Hb as (u & Hu & Hst & Hrid)];
      exists u; (split; [|done]); rewrite lookup_alter_ne; [done| |done|];
      intros ->; by apply (Hx u).
  - intros y u Hy Hst. apply lookup_alter_Some in Hy as [[<- (u0 & _ & ->)]|[Hne Hy]].
    + by apply Hf in Hst.
    + by apply (H2 y u).
Qed.

Lemma rooms_consistent_delete_user us rs x :
  rooms_consistent us rs →
  (∀ u, us !! x = Some u → state u ≠ IN_CHAT) →
  rooms_consistent (delete x us) rs.
Proof.
  intros [H1 H2] Hx. split.
  - intros r room Hr. destruct (H1 r room Hr) as (Hne & Ha & Hb).
    split; [done|].
    split; [destruct Ha as (u & Hu & Hst & Hrid)|destruct Hb as (u & Hu & Hst & Hrid)];
      exists u; (split; [|done]); rewrite lookup_delete_ne; [done| |done|];
      intros ->; by apply (Hx u).
  - intros y u Hy Hst. apply lookup_delete_Some in Hy as [Hne Hy].
    by apply (H2 y u).
Qed.

Lemma rooms_consistent_insert_user us rs x u0 :
  rooms_consistent us rs → us !! x = None → state u0 ≠ IN_CHAT →
  rooms_consistent (<[x := u0]> us) rs.
Proof.
  intros [H1 H2] Hx Hu0. split.
  - intros r room Hr. destruct (H1 r room Hr) as (Hne & Ha & Hb).
    split; [done|].
    split; [destruct Ha as (u & Hu & Hst & Hrid)|destruct Hb as (u & Hu & Hst & Hrid)];
      exists u; (split; [|done]); rewrite lookup_insert_ne; [done| |done|];
      intros ->; congruence.
  - intros y u Hy Hst. apply lookup_insert_Some in Hy as [[<- <-]|[Hne Hy]]; [done|].
    by apply (H2 y u).
Qed.

(** The end of a pairing: the room is deleted and its two members leave the
    chat. *)
Lemma rooms_consistent_dissolve us rs r room x p fx fp :
  rooms_consistent us rs →
  rs !! r = Some room → member room x → member room p →
  (∀ y, member room y → y = x ∨ y = p) →
  (∀ u, state (fx u) ≠ IN_CHAT) → (∀ u, state (fp u) ≠ IN_CHAT) →
  rooms_consistent (alter fp p (alter fx x us)) (delete r rs).
Proof.
  intros [H1 H2] Hr Hmx Hmp Hall Hfx Hfp.
  assert (Hin : ∀ y, member room y → in_room us r y).
  { intros y Hy. destruct (H1 r room Hr) as (_ & ? & ?).
    destruct Hy as [Hy|Hy]; by rewrite Hy. }
  assert (Hother : ∀ r' y, r' ≠ r → in_room us r' y →
            in_room (alter fp p (alter fx x us)) r' y).
  { intros r' y Hne (u & Hu & Hst & Hrid). exists u. split; [|done].
    rewrite !lookup_alter_ne; [done|..].
    - intros <-. destruct (Hin x Hmx) as (u' & ? & _ & ?). congruence.
    - intros <-. destruct (Hin p Hmp) as (u' & ? & _ & ?). congruence. }
  split.
  - intros r' room' Hr'. apply lookup_delete_Some in Hr' as [Hne Hr'].
    destruct (H1 r' room' Hr') as (Hab & Ha & Hb).
    split; [done|]. split; by apply Hother.
  - intros y u Hy Hst.
    apply lookup_alter_Some in Hy as [[<- (u0 & _ & ->)]|[Hnp Hy]];
      [by apply Hfp in Hst|].
    apply lookup_alter_Some in Hy as [[<- (u0 & _ & ->)]|[Hnx Hy]];
      [by apply Hfx in Hst|].
    destruct (H2 y u Hy Hst) as (r' & room' & Hrid & Hr' & Hm).
    exists r', room'. split_and!; [done| |done].
    rewrite lookup_delete_ne; [done|]. intros <-.
    assert (room' = room) as -> by congruence.
    destruct (Hall y Hm); congruence.
Qed.

(** The beginning of a pairing, as the body of the loop makes it. *)
Lemma rooms_consistent_pair us rs new a b ua ub :
  rooms_consistent us rs → a ≠ b →
  us !! a = Some ua → state ua = SEARCHING →
  us !! b = Some ub → state ub = SEARCHING →
  rs !! new = None →
  rooms_consistent (alter (enter_chat new) b (alter (enter_chat new) a us))
                   (<[new := {| room_users := (a, b) |}]> rs).
Proof.
  intros [H1 H2] Hab Ha Hsa Hb Hsb Hnew.
  assert (Hold : ∀ r y, in_room us r y →
            in_room (alter (enter_chat new) b (alter (enter_chat new) a us)) r y).
  { intros r y (u & Hu & Hst & Hrid). exists u. split; [|done].
    rewrite !lookup_alter_ne; [done|intros <-; congruence..]. }
  split.
  - intros r room Hr. apply lookup_insert_Some in Hr as [[<- <-]|[Hne Hr]].
    + simpl. split; [done|]. split.
      * exists (enter_chat new ua). split; [|done].
        rewrite lookup_alter_ne by done. by rewrite lookup_alter_eq, Ha.
      * exists (enter_chat new ub). split; [|done].
        rewrite lookup_alter_eq, lookup_alter_ne by done. by rewrite Hb.
    + destruct (H1 r room Hr) as (Hne' & Hx & Hy).
      split; [done|]. split; by apply Hold.
  - intros y u Hy Hst.
    apply lookup_alter_Some in Hy as [[<- (u0 & _ & ->)]|[Hnb Hy]].
    { exists new, {| room_users := (a, b) |}. split_and!; [done| |by right].
      apply lookup_insert_eq. }
    apply lookup_alter_Some in Hy as [[<- (u0 & _ & ->)]|[Hna Hy]].
    { exists new, {| room_users := (a, b) |}. split_and!; [done| |by left].
      apply lookup_insert_eq. }
    destruct (H2 y u Hy Hst) as (r & room & Hrid & Hr & Hm).
    exists r, room. split_and!; [done| |done].
    rewrite lookup_insert_ne; [done|]. intros <-. congruence.
Qed.

Lemma not_searching_true_pool s x :
  consistent s → x ∈ waitingPool s → not_searching (users s !! x) = false.
Proof.
  intros Hc Hx. apply not_searching_false. by apply (c_pool s Hc).
Qed.

Lemma push_absent_NoDup x (l : list string) : NoDup l → NoDup (push_absent x l).
Proof.
  intros H. unfold push_absent, includes. case_bool_decide as Hin; [done|].
  apply NoDup_app. split_and!; [done| |apply NoDup_singleton].
  intros y Hy Hy'. apply list_elem_of_singleton in Hy'. by subst.
Qed.

Lemma unshift_absent_NoDup x (l : list string) : NoDup l → NoDup (unshift_absent x l).
Proof.
  intros H. unfold unshift_absent, includes. case_bool_decide as Hin; [done|].
  by apply NoDup_cons.
Qed.

Lemma tryMatch_consistent s : consistent s → consistent (tryMatch s).1.
Proof.
  apply (tryMatch_ind (λ s r, consistent s → consistent r.1)); simpl; auto.
  - intros s0 a b rest E Ha _ Hc.
    rewrite (not_searching_true_pool s0 a Hc) in Ha; [done|].
    rewrite E. apply list_elem_of_here.
  - intros s0 a b rest E _ Hb _ Hc.
    rewrite (not_searching_true_pool s0 b Hc) in Hb; [done|].
    rewrite E. apply list_elem_of_further, list_elem_of_here.
  - intros s0 a b rest E Ha Hb IH Hc. apply IH.
    apply not_searching_false in Ha as (ua & Hua & Hsa).
    apply not_searching_false in Hb as (ub & Hub & Hsb).
    pose proof (c_pool_NoDup s0 Hc) as Hnd. rewrite E in Hnd.
    apply NoDup_cons in Hnd as [Ha_out Hnd]. apply NoDup_cons in Hnd as [Hb_out Hnd].
    assert (Hab : a ≠ b) by (intros ->; apply Ha_out, list_elem_of_here).
    split; simpl.
    + eapply rooms_consistent_pair; eauto using c_rooms.
      apply (c_fresh s0 Hc). lia.
    + intros r Hr. apply lookup_insert_is_Some in Hr as [<-|[_ Hr]].
      * apply uuidv4_truthy.
      * by apply (c_room_ids s0 Hc).
    + done.
    + intros x Hx. destruct (c_pool s0 Hc x) as (u & Hu & Hst).
      { rewrite E. by do 2 apply list_elem_of_further. }
      exists u. split; [|done]. rewrite !lookup_alter_ne; [done|..].
      * intros <-. apply Ha_out. by apply list_elem_of_further.
      * intros <-. done.
    + intros x Hx. rewrite !lookup_alter_is_Some in Hx. by apply (c_keys s0 Hc).
    + apply pair_up_uuid_fresh, (c_fresh s0 Hc).
Qed.

(** In a consistent state a user in a chat has a live room. *)
Lemma consistent_live_room s socketId user :
  consistent s → users s !! socketId = Some user → state user = IN_CHAT →
  ∃ r room, live_room s user = Some (r, room).
Proof.
  intros Hc Hu Hst.
  destruct (c_rooms s Hc) as [_ H2].
  destruct (H2 socketId user Hu Hst) as (r & room & Hr & Hroom & _).
  exists r, room. apply live_room_Some. split_and!; [done..| |done].
  apply (c_room_ids s Hc). by eexists.
Qed.

(** In a consistent state the room of a user lists it with one other
    connection, the partner, which is in a chat in that room. *)
Lemma consistent_partner s socketId user r room :
  consistent s → users s !! socketId = Some user →
  live_room s user = Some (r, room) →
  ∃ p up, find_partner room socketId = Some p ∧ p ≠ socketId
          ∧ users s !! p = Some up ∧ state up = IN_CHAT
          ∧ member room socketId ∧ member room p
          ∧ (∀ y, member room y → y = socketId ∨ y = p).
Proof.
  intros Hc Hu Hl. apply live_room_Some in Hl as (Hst & Hr & _ & Hroom).
  destruct (c_rooms s Hc) as [H1 H2].
  destruct (H2 socketId user Hu Hst) as (r' & room' & Hr' & Hroom' & Hm).
  assert (r' = r) as -> by congruence.
  assert (room' = room) as -> by congruence.
  destruct (H1 r room Hroom) as (Hne & Ha & Hb).
  unfold member in *. destruct (room_users room) as [a b] eqn:Epair. simpl in *.
  assert (Hp : ∃ p, find_other room socketId = Some p ∧ p ≠ socketId
                    ∧ in_room (users s) r p ∧ (p = a ∨ p = b)
                    ∧ ∀ y, y = a ∨ y = b → y = socketId ∨ y = p).
  { unfold find_other. rewrite Epair. destruct Hm as [-> | ->].
    - exists b. rewrite bool_decide_eq_false_2 by (intros ?; done).
      rewrite bool_decide_eq_true_2 by done.
      split_and!; [done|done|done|by right|]. intros y [-> | ->]; auto.
    - exists a. rewrite bool_decide_eq_true_2 by done.
      split_and!; [done|done|done|by left|]. intros y [-> | ->]; auto. }
  destruct Hp as (p & Hfind & Hpne & (up & Hup & Hstp & _) & Hmp & Hall).
  exists p, up. split_and!; try done.
  apply find_partner_Some. split; [done|].
  apply (c_keys s Hc). by eexists.
Qed.

(** The end of [handleDisconnect] could as well come before its call of
    [tryMatch]: the loop does not look at a user that is not in the pool,
    nor at a room. *)
Lemma tryMatch_forget s socketId r :
  socketId ∉ waitingPool s →
  (∀ n, next_uuid s ≤ n → r ≠ uuidv4 n) →
  tryMatch (forget socketId r s) = (forget socketId r (tryMatch s).1, (tryMatch s).2).
Proof.
  apply (tryMatch_ind (λ s res,
    socketId ∉ waitingPool s → (∀ n, next_uuid s ≤ n → r ≠ uuidv4 n) →
    tryMatch (forget socketId r s) = (forget socketId r res.1, res.2))).
  - intros s0 Hlen _ _. rewrite tryMatch_unfold. simpl.
    destruct (waitingPool s0) as [|a [|b rest]]; [done..|simpl in Hlen; lia].
  - intros s0 a b rest E Ha s1 IH Hout Hr.
    rewrite tryMatch_unfold. cbn [forget set_users set_rooms waitingPool users].
    rewrite E. rewrite lookup_delete_ne, Ha.
    + apply IH; [|done]. subst s1. simpl. intros Hin. apply Hout. rewrite E.
      eapply elem_of_sublist; [exact Hin|]. apply unshift_truthy_sublist.
    + intros <-. apply Hout. rewrite E. apply list_elem_of_here.
  - intros s0 a b rest E Ha Hb s1 IH Hout Hr.
    rewrite tryMatch_unfold. cbn [forget set_users set_rooms waitingPool users].
    rewrite E. rewrite !lookup_delete_ne, Ha, Hb.
    + apply IH; [|done]. subst s1. simpl. intros Hin. apply Hout. rewrite E.
      eapply elem_of_sublist; [exact Hin|]. apply unshift_truthy_sublist'.
    + intros <-. apply Hout. rewrite E. apply list_elem_of_further, list_elem_of_here.
    + intros <-. apply Hout. rewrite E. apply list_elem_of_here.
  - intros s0 a b rest E Ha Hb s1 IH Hout Hr.
    assert (Hna : socketId ≠ a).
    { intros <-. apply Hout. rewrite E. apply list_elem_of_here. }
    assert (Hnb : socketId ≠ b).
    { intros <-. apply Hout. rewrite E. apply list_elem_of_further, list_elem_of_here. }
    rewrite tryMatch_unfold. cbn [forget set_users set_rooms waitingPool users].
    rewrite E. rewrite !lookup_delete_ne, Ha, Hb by done.
    assert (Hpair : pair_up (forget socketId r s0) a b rest = forget socketId r s1).
    { subst s1. unfold pair_up, forget, set_users, set_rooms. simpl. f_equal.
      - by rewrite !delete_alter_ne.
      - rewrite delete_insert_ne; [done|]. apply Hr. lia. }
    fold (forget socketId r s0). rewrite Hpair, IH.
    + cbn [fst snd]. f_equal. unfold match_emits.
      cbn [forget set_users set_rooms users next_uuid].
      by rewrite !lookup_delete_ne.
    + subst s1. simpl. intros Hin. apply Hout. rewrite E.
      by do 2 apply list_elem_of_further.
    + subst s1. simpl. intros n Hn. apply Hr. lia.
Qed.

(** What is known of a user that [paired_with] finds a partner for. *)
Lemma consistent_paired s socketId r p :
  consistent s → paired_with s socketId = Some (r, p) →
  ∃ user up room, users s !! socketId = Some user ∧ state user = IN_CHAT
    ∧ users s !! p = Some up ∧ state up = IN_CHAT ∧ p ≠ socketId
    ∧ rooms s !! r = Some room ∧ roomId user = Some r
    ∧ member room socketId ∧ member room p
    ∧ (∀ y, member room y → y = socketId ∨ y = p).
Proof.
  intros Hc Hp. apply paired_with_Some in Hp as (user & room & Hu & Hl & Hf).
  destruct (consistent_partner s socketId user r room Hc Hu Hl)
    as (p' & up & Hf' & Hne & Hup & Hstp & Hm & Hmp & Hall).
  assert (p' = p) as -> by congruence.
  apply live_room_Some in Hl as (Hst & Hr & _ & Hroom).
  exists user, up, room. split_and!; done.
Qed.

(** The two members of a dissolved room after their updates, and the
    others. *)
Lemma dissolve_lookup (us : gmap string User) x p fx fp ux up :
  p ≠ x → us !! x = Some ux → us !! p = Some up →
  alter fp p (alter fx x us) !! x = Some (fx ux)
  ∧ alter fp p (alter fx x us) !! p = Some (fp up)
  ∧ ∀ y, y ≠ x → y ≠ p → alter fp p (alter fx x us) !! y = us !! y.
Proof.
  intros Hne Hx Hp. split_and!.
  - rewrite lookup_alter_ne by done. by rewrite lookup_alter_eq, Hx.
  - rewrite lookup_alter_eq, lookup_alter_ne by done. by rewrite Hp.
  - intros y ? ?. by rewrite !lookup_alter_ne.
Qed.

(** A pool entry is searching, so it is none of two users in a chat. *)
Lemma pool_entry_not_in_chat s x y u :
  consistent s → x ∈ waitingPool s → users s !! y = Some u → state u = IN_CHAT →
  x ≠ y.
Proof.
  intros Hc Hx Hy Hst ->. destruct (c_pool s Hc y Hx) as (u' & Hu' & Hst').
  congruence.
Qed.

Lemma skip_chat_cleanup_consistent s socketId r p :
  consistent s → paired_with s socketId = Some (r, p) →
  consistent (skip_chat_cleanup s socketId r p).1.
Proof.
  intros Hc Hp.
  destruct (consistent_paired s socketId r p Hc Hp)
    as (user & up & room & Hu & Hst & Hup & Hstp & Hne & Hroom & Hr & Hm & Hmp & Hall).
  destruct (dissolve_lookup (users s) socketId p to_searching to_searching user up
              Hne Hu Hup) as (Lx & Lp & Lo).
  unfold skip_chat_cleanup. rewrite Hup. split; simpl.
  - by eapply rooms_consistent_dissolve; eauto using c_rooms.
  - intros r' [room' Hr']. apply lookup_delete_Some in Hr' as [_ Hr'].
    apply (c_room_ids s Hc). by eexists.
  - apply unshift_absent_NoDup, push_absent_NoDup, (c_pool_NoDup s Hc).
  - intros x Hx. apply elem_of_unshift_absent in Hx as [->|Hx].
    { by exists (to_searching up). }
    apply elem_of_push_absent in Hx as [->|Hx].
    { by exists (to_searching user). }
    rewrite Lo.
    + by apply (c_pool s Hc).
    + by eapply pool_entry_not_in_chat.
    + by eapply pool_entry_not_in_chat.
  - intros x Hx. rewrite !lookup_alter_is_Some in Hx. by apply (c_keys s Hc).
  - pose proof (c_fresh s Hc) as Hf. fresh_after_delete Hf.
Qed.

Lemma stop_chat_cleanup_consistent s socketId r p :
  consistent s → paired_with s socketId = Some (r, p) →
  consistent (stop_chat_cleanup s socketId r p).1.
Proof.
  intros Hc Hp.
  destruct (consistent_paired s socketId r p Hc Hp)
    as (user & up & room & Hu & Hst & Hup & Hstp & Hne & Hroom & Hr & Hm & Hmp & Hall).
  destruct (dissolve_lookup (users s) socketId p to_idle to_searching user up
              Hne Hu Hup) as (Lx & Lp & Lo).
  unfold stop_chat_cleanup. rewrite Hup. split; simpl.
  - by eapply rooms_consistent_dissolve; eauto using c_rooms.
  - intros r' [room' Hr']. apply lookup_delete_Some in Hr' as [_ Hr'].
    apply (c_room_ids s Hc). by eexists.
  - apply unshift_absent_NoDup, (c_pool_NoDup s Hc).
  - intros x Hx. apply elem_of_unshift_absent in Hx as [->|Hx].
    { by exists (to_searching up). }
    rewrite Lo.
    + by apply (c_pool s Hc).
    + by eapply pool_entry_not_in_chat.
    + by eapply pool_entry_not_in_chat.
  - intros x Hx. rewrite !lookup_alter_is_Some in Hx. by apply (c_keys s Hc).
  - pose proof (c_fresh s Hc) as Hf. fresh_after_delete Hf.
Qed.

Lemma handleDisconnect_consistent s socketId :
  consistent s → consistent (handleDisconnect s socketId).1.
Proof.
  intros Hc.
  pose proof (splice_out_sublist socketId (waitingPool s)) as Hsub.
  pose proof (splice_out_NoDup socketId _ (c_pool_NoDup s Hc)) as Hout.
  pose proof (sublist_NoDup _ _ (c_pool_NoDup s Hc) Hsub) as Hnd.
  destruct (handleDisconnect_cases s socketId)
    as [[_ ->]|[(user & Hu & Hl & ->)|[(user & r & room & Hu & Hl & Hf & ->)
       |[(user & r & room & p & Hu & Hl & Hf & Hp & ->)
        |(user & r & room & p & Hu & Hl & Hf & Hp & ->)]]]];
    [done|..];
    change (live_room (set_pool (splice_out socketId) s) user)
      with (live_room s user) in Hl.
  - assert (Hst : state user ≠ IN_CHAT).
    { intros Hst. destruct (consistent_live_room s socketId user Hc Hu Hst)
        as (r & room & Hl'). congruence. }
    split; simpl.
    + apply rooms_consistent_delete_user; [apply (c_rooms s Hc)|]. congruence.
    + apply (c_room_ids s Hc).
    + done.
    + intros x Hx. rewrite lookup_delete_ne by (intros <-; done).
      apply (c_pool s Hc). by eapply elem_of_sublist.
    + intros x Hx. apply lookup_delete_is_Some in Hx as [_ Hx]. by apply (c_keys s Hc).
    + apply (c_fresh s Hc).
  - destruct (consistent_partner s socketId user r room Hc Hu Hl) as (p & up & Hf' & _).
    congruence.
  - destruct (consistent_partner s socketId user r room Hc Hu Hl)
      as (p' & up & Hf' & _ & Hup & _).
    congruence.
  - destruct (consistent_partner s socketId user r room Hc Hu Hl)
      as (p' & up & Hf' & Hne & Hup & Hstp & Hm & Hmp & Hall).
    assert (p' = p) as -> by congruence. clear Hp.
    apply live_room_Some in Hl as (Hst & Hr & _ & Hroom).
    set (s2 := (disconnect_requeue (set_pool (splice_out socketId) s) p).1).
    cbn [fst]. fold (forget socketId r (tryMatch s2).1).
    assert (Hpout : p ∉ waitingPool s).
    { intros Hin. by eapply (pool_entry_not_in_chat s p p up). }
    assert (Hcomm : tryMatch (forget socketId r s2)
                    = (forget socketId r (tryMatch s2).1, (tryMatch s2).2)).
    { apply tryMatch_forget.
      - subst s2. simpl. intros Hin. apply elem_of_cons in Hin as [Hin|Hin]; [congruence|done].
      - subst s2. simpl. intros n Hn ->. pose proof (c_fresh s Hc n Hn). congruence. }
    replace (forget socketId r (tryMatch s2).1) with (tryMatch (forget socketId r s2)).1
      by (by rewrite Hcomm).
    apply tryMatch_consistent.
    destruct (dissolve_lookup (users s) socketId p to_idle to_searching user up
                Hne Hu Hup) as (Lx & Lp & Lo).
    assert (Hmap : delete socketId (alter to_searching p (users s))
                   = delete socketId (alter to_searching p (alter to_idle socketId (users s)))).
    { rewrite !(delete_alter_ne _ socketId p) by done. by rewrite delete_alter_eq. }
    subst s2. split; simpl; rewrite ?Hmap.
    + apply rooms_consistent_delete_user.
      * by eapply rooms_consistent_dissolve; eauto using c_rooms.
      * intros u. rewrite Lx. by intros [= <-].
    + intros r' [room' Hr']. apply lookup_delete_Some in Hr' as [_ Hr'].
      apply (c_room_ids s Hc). by eexists.
    + apply NoDup_cons. split; [|done]. intros Hin. apply Hpout.
      by eapply elem_of_sublist.
    + intros x Hx. apply elem_of_cons in Hx as [->|Hx].
      { exists (to_searching up). split; [|done]. by rewrite lookup_delete_ne. }
      assert (x ∈ waitingPool s) by (by eapply elem_of_sublist).
      rewrite lookup_delete_ne by (intros <-; done). rewrite Lo.
      * by apply (c_pool s Hc).
      * by eapply pool_entry_not_in_chat.
      * by eapply pool_entry_not_in_chat.
    + intros x Hx. apply lookup_delete_is_Some in Hx as [_ Hx].
      rewrite !lookup_alter_is_Some in Hx. by apply (c_keys s Hc).
    + pose proof (c_fresh s Hc) as Hfr. fresh_after_delete Hfr.
Qed.

Lemma step_consistent s e : consistent s → honest s e → consistent (step s e).1.
Proof.
  intros Hc Hh. destruct e; simpl; try done.
  - destruct Hh as [Ht Hnew]. split; simpl.
    + apply rooms_consistent_insert_user; [apply (c_rooms s Hc)|done..].
    + apply (c_room_ids s Hc).
    + apply (c_pool_NoDup s Hc).
    + intros x Hx. destruct (c_pool s Hc x Hx) as (u & Hu & Hst).
      exists u. split; [|done]. rewrite lookup_insert_ne; [done|]. intros <-. congruence.
    + intros x Hx. apply lookup_insert_is_Some in Hx as [<-|[_ Hx]]; [done|].
      by apply (c_keys s Hc).
    + apply (c_fresh s Hc).
  - unfold start_searching. destruct (users s !! socketId) as [user|] eqn:Hu; [|done].
    destruct (bool_decide (state user = IDLE) || bool_decide (state user = SEARCHING))
      eqn:Hst; [|done].
    assert (Hnc : state user ≠ IN_CHAT).
    { intros E. rewrite E in Hst. done. }
    rewrite then_tryMatch_fst. apply tryMatch_consistent. split; simpl.
    + apply rooms_consistent_alter; [apply (c_rooms s Hc)|congruence|done].
    + apply (c_room_ids s Hc).
    + apply push_absent_NoDup, (c_pool_NoDup s Hc).
    + intros x Hx. destruct (decide (x = socketId)) as [->|Hne].
      * exists (begin_search p user). by rewrite lookup_alter_eq, Hu.
      * apply elem_of_push_absent in Hx as [?|Hx]; [done|].
        rewrite lookup_alter_ne by done. by apply (c_pool s Hc).
    + intros x Hx. rewrite lookup_alter_is_Some in Hx. by apply (c_keys s Hc).
    + apply (c_fresh s Hc).
  - unfold stop_searching. destruct (users s !! socketId) as [user|] eqn:Hu; [|done].
    case_bool_decide as Hst; [|done].
    pose proof (splice_out_sublist socketId (waitingPool s)) as Hsub.
    split; simpl.
    + apply rooms_consistent_alter; [apply (c_rooms s Hc)|congruence|done].
    + apply (c_room_ids s Hc).
    + eapply sublist_NoDup; [apply (c_pool_NoDup s Hc)|done].
    + intros x Hx. rewrite lookup_alter_ne.
      * apply (c_pool s Hc). by eapply elem_of_sublist.
      * intros <-. by apply (splice_out_NoDup socketId _ (c_pool_NoDup s Hc)).
    + intros x Hx. rewrite lookup_alter_is_Some in Hx. by apply (c_keys s Hc).
    + apply (c_fresh s Hc).
  - unfold skip_chat. destruct (paired_with s socketId) as [[r p]|] eqn:Hp; [|done].
    rewrite then_tryMatch_fst. by apply tryMatch_consistent, skip_chat_cleanup_consistent.
  - unfold stop_chat. destruct (paired_with s socketId) as [[r p]|] eqn:Hp; [|done].
    rewrite then_tryMatch_fst. by apply tryMatch_consistent, stop_chat_cleanup_consistent.
  - unfold chat_message_handler. destruct (users s !! socketId); [|done].
    by destruct (_ && _).
  - unfold initiate_report.
    destruct (report_guard s socketId partnerId) as [[[user partner] r]|] eqn:Hg; [|done].
    destruct Hh as [?|[r' Hp]]; [congruence|].
    destruct (then_tryMatch _) as [s' out] eqn:Et. simpl.
    change s' with (s', out).1. rewrite <- Et, then_tryMatch_fst.
    apply tryMatch_consistent.
    apply report_guard_Some in Hg as (Hu & Hpa & _ & Hr & _).
    destruct (consistent_paired s socketId r' partnerId Hc Hp)
      as (user' & up & room & Hu' & _ & Hup & _ & _ & _ & Hr' & _).
    assert (r' = r) as -> by congruence.
    pose proof (stop_chat_cleanup_consistent s socketId r partnerId Hc Hp) as H.
    unfold stop_chat_cleanup in H. rewrite Hup in H. exact H.
  - by apply handleDisconnect_consistent.
Qed.

Lemma run_cons s e es : run s (e :: es) = run (step s e).1 es.
Proof. reflexivity. Qed.

Lemma run_consistent es : ∀ s, consistent s → honest_run s es → consistent (run s es).
Proof.
  induction es as [|e es IH]; intros s Hc Hh; [done|].
  destruct Hh as [He Hes]. rewrite run_cons. apply IH; [|done].
  by apply step_consistent.
Qed.

Lemma init_consistent : consistent init.
Proof.
  split; simpl.
  - split.
    + intros r room Hr. by rewrite lookup_empty in Hr.
    + intros x u Hx. by rewrite lookup_empty in Hx.
  - intros r [room Hr]. by rewrite lookup_empty in Hr.
  - constructor.
  - intros x Hx. by apply elem_of_nil in Hx.
  - intros x [u Hx]. by rewrite lookup_empty in Hx.
  - intros n _. apply lookup_empty.
Qed.

(** The room invariant holds, and the pool holds searching users only and
    none twice, as long as every report names the partner of the reporter
    (and the transport gives every connection an identifier of its own). *)
Lemma honest_run_room_invariant es :
  honest_run init es →
  room_invariant (run init es)
  ∧ NoDup (waitingPool (run init es))
  ∧ Forall (λ x, state <$> users (run init es) !! x = Some SEARCHING)
           (waitingPool (run init es)).
Proof.
  intros Hh. pose proof (run_consistent es init init_consistent Hh) as Hc.
  split_and!.
  - apply (c_rooms _ Hc).
  - apply (c_pool_NoDup _ Hc).
  - apply Forall_forall. intros x Hx.
    destruct (c_pool _ Hc x Hx) as (u & -> & Hst). simpl. by rewrite Hst.
Qed.

(** ** A report that names a stranger *)

(** The run that pairs Z with W and U with P is an honest one. *)
Lemma two_rooms_honest : honest_run init two_rooms.
Proof. simpl. split_and!; done. Qed.

(** The report of P by Z is not an event of an honest run. *)
Lemma stranger_reported_not_honest : ¬ honest_run init stranger_reported.
Proof.
  simpl. intros (_ & _ & _ & _ & _ & _ & _ & _ & [Hg|[r Hp]] & _).
  - discriminate Hg.
  - discriminate Hp.
Qed.

(** C4, at the input where the engine breaks it.  Z is paired with W, and P
    with U.  The report of P by Z is not rejected: P is told that its
    partner has left and is requeued, the room of Z is deleted, and the
    report function is called. *)
Theorem report_of_a_stranger_is_accepted :
  paired_with (run init two_rooms) "Z" = Some ("room-0", "W")
  ∧ paired_with (run init two_rooms) "P" = Some ("room-1", "U")
  ∧ (step (run init two_rooms) (InitiateReport "Z" "P" "screenshot" "log")).2
    = [emit "P" partner_disconnected; emit "Z" partner_disconnected;
       emit "P" auto_searching;
       invoke_create_report (Some "user-Z") (Some "user-P") "screenshot" "log"]
  ∧ waitingPool (run init two_rooms) = []
  ∧ waitingPool (run init stranger_reported) = ["P"]
  ∧ state <$> users (run init two_rooms) !! "P" = Some IN_CHAT
  ∧ state <$> users (run init stranger_reported) !! "P" = Some SEARCHING
  ∧ rooms (run init two_rooms) !! "room-0" = Some {| room_users := ("Z", "W") |}
  ∧ rooms (run init stranger_reported) !! "room-0" = None.
Proof. split_and!; reflexivity. Qed.

(** C1, at the input where the engine breaks it.  Z and W are in the first
    room and U and P in the second, as the invariant wants.  Z reports P,
    who is not its partner: the handler deletes the room of Z and requeues
    P.  W is left in a chat in a room that is no more, and the second room
    lists P, who is searching. *)
Theorem report_of_a_stranger_breaks_rooms :
  paired_with (run init two_rooms) "Z" = Some ("room-0", "W")
  ∧ paired_with (run init two_rooms) "P" = Some ("room-1", "U")
  ∧ (users (run init stranger_reported) !! "W" ≫= roomId = Some "room-0"
     ∧ state <$> users (run init stranger_reported) !! "W" = Some IN_CHAT
     ∧ rooms (run init stranger_reported) !! "room-0" = None)
  ∧ (rooms (run init stranger_reported) !! "room-1"
       = Some {| room_users := ("U", "P") |}
     ∧ state <$> users (run init stranger_reported) !! "P" = Some SEARCHING)
  ∧ ¬ room_invariant (run init stranger_reported).
Proof.
  split_and!; try reflexivity.
  intros [_ H].
  destruct (H "W" (enter_chat "room-0" (begin_search (profile_of "W") new_user)))
    as (r & room & Hr & Hroom & _); [reflexivity..|].
  injection Hr as <-. discriminate Hroom.
Qed.

(** C2, at the input where the engine breaks it.  After Z has reported P,
    P is in the pool and still listed in the room of U.  U disconnects:
    [handleDisconnect] finds P as the partner and puts it at the front of
    the pool without looking whether it is there, the pool holds P twice,
    and the Matchmaker pairs P with P. *)
Theorem disconnect_requeue_duplicates :
  waitingPool (run init stranger_reported) = ["P"]
  ∧ paired_with (run init stranger_reported) "U" = Some ("room-1", "P")
  ∧ waitingPool (disconnect_requeue
                   (set_pool (splice_out "U") (run init stranger_reported)) "P").1
    = ["P"; "P"]
  ∧ ¬ NoDup (waitingPool (disconnect_requeue
               (set_pool (splice_out "U") (run init stranger_reported)) "P").1)
  ∧ (step (run init stranger_reported) (Disconnect "U")).2
    = [emit "P" partner_disconnected; emit "P" auto_searching;
       emit "P" (match_found "room-2" "P" true (Some (profile_of "P")));
       emit "P" (match_found "room-2" "P" false (Some (profile_of "P")))]
  ∧ rooms (step (run init stranger_reported) (Disconnect "U")).1 !! "room-2"
    = Some {| room_users := ("P", "P") |}.
Proof.
  split_and!; try reflexivity.
  intros H. apply NoDup_cons in H as [H _]. apply H, list_elem_of_here.
Qed.

(** * Further properties *)

(** ** The Matchmaker on the whole pool *)

Lemma searching_true s x :
  searching s x = true ↔ ∃ u, users s !! x = Some u ∧ state u = SEARCHING.
Proof.
  unfold searching. rewrite negb_true_iff. apply not_searching_false.
Qed.

Lemma searching_false s x : searching s x = false ↔ not_searching (users s !! x) = true.
Proof. unfold searching. apply negb_false_iff. Qed.

(** A pairing changes no profile. *)
Lemma pair_up_profile s a b rest x :
  users (pair_up s a b rest) !! x ≫= profile = users s !! x ≫= profile.
Proof.
  rewrite pair_up_users. case_bool_decide; [|done].
  by destruct (users s !! x).
Qed.

Lemma pair_off_profiles s s' n l :
  (∀ x, users s' !! x ≫= profile = users s !! x ≫= profile) →
  pair_off s' n l = pair_off s n l.
Proof.
  intros H.
  assert (Hk : ∀ k l0 n0, length l0 ≤ k → pair_off s' n0 l0 = pair_off s n0 l0).
  { induction k as [|k IH]; intros l0 n0 Hlen.
    - destruct l0; [done|simpl in Hlen; lia].
    - destruct l0 as [|a [|b rest]]; [done..|].
      simpl. rewrite !H. f_equal. apply IH. simpl in Hlen. lia. }
  by apply (Hk (length l)).
Qed.

Lemma filter_searching_ext s s' (l : list string) :
  (∀ x, x ∈ l → users s' !! x = users s !! x) →
  List.filter (searching s') l = List.filter (searching s) l.
Proof.
  induction l as [|a l IH]; intros H; [done|].
  assert (Ha : searching s' a = searching s a).
  { unfold searching. rewrite H; [done|]. apply list_elem_of_here. }
  simpl. rewrite Ha, IH; [done|].
  intros x Hx. apply H. by apply list_elem_of_further.
Qed.

Lemma tryMatch_pair_off s :
  NoDup (waitingPool s) →
  Forall (λ x, truthy x = true) (waitingPool s) →
  (tryMatch s).2
  = concat (pairing_emits <$>
      pair_off s (next_uuid s) (List.filter (searching s) (waitingPool s))).
Proof.
  apply (tryMatch_ind (λ s res,
    NoDup (waitingPool s) → Forall (λ x, truthy x = true) (waitingPool s) →
    res.2 = concat (pairing_emits <$>
      pair_off s (next_uuid s) (List.filter (searching s) (waitingPool s))))).
  - intros s0 Hlen _ _. simpl.
    destruct (waitingPool s0) as [|a [|b rest]]; [done| |simpl in Hlen; lia].
    simpl. by destruct (searching s0 a).
  - intros s0 a b rest E Ha s1 IH Hnd Hids. rewrite E in Hnd, Hids.
    apply NoDup_cons in Hnd as [_ Hnd].
    apply Forall_cons in Hids as [_ Hids]. pose proof Hids as Hids'.
    apply Forall_cons in Hids' as [Hb _].
    assert (Hpool : waitingPool s1 = b :: rest).
    { subst s1. simpl. unfold unshift_truthy. by rewrite Hb. }
    rewrite IH; rewrite ?Hpool; [|done..].
    rewrite E. apply searching_false in Ha.
    change (List.filter (searching s0) (a :: b :: rest))
      with (if searching s0 a then a :: List.filter (searching s0) (b :: rest)
            else List.filter (searching s0) (b :: rest)).
    rewrite Ha. rewrite (filter_searching_ext s0 s1) by done.
    by rewrite (pair_off_profiles s0 s1).
  - intros s0 a b rest E Ha Hb s1 IH Hnd Hids. rewrite E in Hnd, Hids.
    apply NoDup_cons in Hnd as [Ha_out Hnd]. apply NoDup_cons in Hnd as [Hb_out Hnd].
    apply Forall_cons in Hids as [Hta Hids]. apply Forall_cons in Hids as [_ Hids].
    assert (Hpool : waitingPool s1 = a :: rest).
    { subst s1. simpl. unfold unshift_truthy. by rewrite Hta. }
    rewrite IH; rewrite ?Hpool.
    + rewrite E. apply searching_false in Hb.
      change (List.filter (searching s0) (a :: b :: rest))
        with (if searching s0 a
              then a :: (if searching s0 b then b :: List.filter (searching s0) rest
                         else List.filter (searching s0) rest)
              else (if searching s0 b then b :: List.filter (searching s0) rest
                    else List.filter (searching s0) rest)).
      rewrite Hb. rewrite (filter_searching_ext s0 s1) by done.
      rewrite (pair_off_profiles s0 s1) by done.
      simpl. by destruct (searching s0 a).
    + apply NoDup_cons. split; [|done]. intros Hin. apply Ha_out.
      by apply list_elem_of_further.
    + by apply Forall_cons.
  - intros s0 a b rest E Ha Hb s1 IH Hnd Hids. rewrite E in Hnd, Hids.
    apply NoDup_cons in Hnd as [Ha_out Hnd]. apply NoDup_cons in Hnd as [Hb_out Hnd].
    apply Forall_cons in Hids as [_ Hids]. apply Forall_cons in Hids as [_ Hids].
    cbn [snd]. rewrite IH; [|done..]. subst s1. cbn [waitingPool pair_up next_uuid].
    assert (Hsa : searching s0 a = true) by (unfold searching; by rewrite Ha).
    assert (Hsb : searching s0 b = true) by (unfold searching; by rewrite Hb).
    rewrite E.
    change (List.filter (searching s0) (a :: b :: rest))
      with (if searching s0 a
            then a :: (if searching s0 b then b :: List.filter (searching s0) rest
                       else List.filter (searching s0) rest)
            else (if searching s0 b then b :: List.filter (searching s0) rest
                  else List.filter (searching s0) rest)).
    rewrite Hsa, Hsb.
    rewrite (filter_searching_ext s0 (pair_up s0 a b rest)).
    + rewrite (pair_off_profiles s0 (pair_up s0 a b rest));
        [reflexivity|apply pair_up_profile].
    + intros x Hx. rewrite pair_up_users, bool_decide_eq_false_2; [done|].
      intros [-> | ->]; [apply Ha_out; by apply list_elem_of_further|done].
Qed.

Lemma leftover_all_searching s :
  NoDup (waitingPool s) →
  Forall (λ x, searching s x = true) (waitingPool s) →
  waitingPool (tryMatch s).1 = leftover (waitingPool s).
Proof.
  apply (tryMatch_ind (λ s res,
    NoDup (waitingPool s) → Forall (λ x, searching s x = true) (waitingPool s) →
    waitingPool res.1 = leftover (waitingPool s))).
  - intros s0 Hlen _ _. simpl.
    destruct (waitingPool s0) as [|a [|b rest]]; [done..|simpl in Hlen; lia].
  - intros s0 a b rest E Ha s1 _ _ Hall. rewrite E in Hall.
    apply Forall_cons in Hall as [Hsa _]. apply searching_false in Ha. congruence.
  - intros s0 a b rest E _ Hb s1 _ _ Hall. rewrite E in Hall.
    apply Forall_cons in Hall as [_ Hall]. apply Forall_cons in Hall as [Hsb _].
    apply searching_false in Hb. congruence.
  - intros s0 a b rest E Ha Hb s1 IH Hnd Hall. rewrite E in Hnd, Hall.
    apply NoDup_cons in Hnd as [Ha_out Hnd]. apply NoDup_cons in Hnd as [Hb_out Hnd].
    apply Forall_cons in Hall as [_ Hall]. apply Forall_cons in Hall as [_ Hall].
    cbn [fst]. rewrite IH, E; [done|done|].
    subst s1. simpl. apply Forall_forall. intros x Hx.
    rewrite Forall_forall in Hall. specialize (Hall x Hx).
    unfold searching in *. simpl.
    rewrite !lookup_alter_ne; [done|..].
    + intros <-. apply Ha_out. by apply list_elem_of_further.
    + intros <-. done.
Qed.

(** X1.  First come, first paired.  On a pool of connection identifiers
    none of which is there twice, one call of [tryMatch] emits the
    [match-found] events of the pairings, two by two from the front, of the
    entries that name a searching user: an entry that does not is passed
    over and its neighbours are paired with each other.  When every entry
    names a searching user the call leaves the pool empty, or with its last
    entry when their number is odd. *)
Theorem tryMatch_first_come_first_paired (s : State) :
  NoDup (waitingPool s) →
  Forall (λ x, truthy x = true) (waitingPool s) →
  (tryMatch s).2
  = concat (pairing_emits <$>
      pair_off s (next_uuid s) (List.filter (searching s) (waitingPool s)))
  ∧ (Forall (λ x, searching s x = true) (waitingPool s) →
     waitingPool (tryMatch s).1 = leftover (waitingPool s)).
Proof.
  intros Hnd Hids. split; [by apply tryMatch_pair_off|].
  intros Hall. by apply leftover_all_searching.
Qed.

(** On the pool A, B, C, D, E with B idle: A is paired with C and D with E. *)
Lemma tryMatch_first_come_first_paired_witness :
  NoDup (waitingPool five_waiting)
  ∧ Forall (λ x, truthy x = true) (waitingPool five_waiting)
  ∧ (tryMatch five_waiting).2
    = [emit "A" (match_found "room-0" "C" true (Some (profile_of "C")));
       emit "C" (match_found "room-0" "A" false (Some (profile_of "A")));
       emit "D" (match_found "room-1" "E" true (Some (profile_of "E")));
       emit "E" (match_found "room-1" "D" false (Some (profile_of "D")))].
Proof.
  assert (H1 : NoDup (waitingPool five_waiting)).
  { change (NoDup ["A"; "B"; "C"; "D"; "E"]).
    repeat (apply NoDup_cons_2; [by apply (bool_decide_unpack _)|]).
    apply NoDup_nil_2. }
  assert (H2 : Forall (λ x, truthy x = true) (waitingPool five_waiting))
    by (repeat constructor).
  destruct (tryMatch_first_come_first_paired five_waiting H1 H2) as [Heff _].
  split_and!; [exact H1|exact H2|].
  rewrite Heff. reflexivity.
Defined.

Lemma elem_of_unshift_truthy x y l :
  truthy y = true → x ∈ unshift_truthy y l ↔ x = y ∨ x ∈ l.
Proof. intros H. unfold unshift_truthy. rewrite H. apply elem_of_cons. Qed.

Lemma tryMatch_searcher_stays (s : State) (x : string) (u : User) :
  x ∈ waitingPool s → truthy x = true →
  users s !! x = Some u → state u = SEARCHING →
  (x ∈ waitingPool (tryMatch s).1 ∧ users (tryMatch s).1 !! x = Some u)
  ∨ state <$> users (tryMatch s).1 !! x = Some IN_CHAT.
Proof.
  intros Hin Ht. revert Hin.
  apply (tryMatch_ind (λ s res,
    x ∈ waitingPool s → users s !! x = Some u → state u = SEARCHING →
    (x ∈ waitingPool res.1 ∧ users res.1 !! x = Some u)
    ∨ state <$> users res.1 !! x = Some IN_CHAT)).
  - intros s0 _ Hin Hu _. by left.
  - intros s0 a b rest E Ha s1 IH Hin Hu Hst. apply IH; [|done..].
    subst s1. simpl. rewrite E in Hin.
    apply elem_of_cons in Hin as [->|Hin].
    { rewrite Hu in Ha. simpl in Ha. rewrite bool_decide_eq_true_2 in Ha; done. }
    apply elem_of_cons in Hin as [->|Hin].
    + apply elem_of_unshift_truthy; auto.
    + unfold unshift_truthy. destruct (truthy b); [by apply list_elem_of_further|done].
  - intros s0 a b rest E Ha Hb s1 IH Hin Hu Hst. apply IH; [|done..].
    subst s1. simpl. rewrite E in Hin.
    apply elem_of_cons in Hin as [->|Hin].
    { apply elem_of_unshift_truthy; auto. }
    apply elem_of_cons in Hin as [->|Hin].
    + rewrite Hu in Hb. simpl in Hb. rewrite bool_decide_eq_true_2 in Hb; done.
    + unfold unshift_truthy. destruct (truthy a); [by apply list_elem_of_further|done].
  - intros s0 a b rest E Ha Hb s1 IH Hin Hu Hst. cbn [fst].
    destruct (decide (x = a ∨ x = b)) as [Hab|Hab].
    + right.
      rewrite (tryMatch_users_in_chat s1 x (enter_chat (uuidv4 (next_uuid s0)) u));
        [done| |done].
      subst s1. rewrite pair_up_users, bool_decide_eq_true_2 by done. by rewrite Hu.
    + apply IH; [|by subst s1; rewrite pair_up_users, bool_decide_eq_false_2|done].
      subst s1. simpl. rewrite E in Hin.
      apply elem_of_cons in Hin as [->|Hin]; [tauto|].
      apply elem_of_cons in Hin as [->|Hin]; [tauto|done].
Qed.

(** X2.  The Matchmaker loses no searcher.  A searching user whose
    identifier (not the empty string) is in the pool when [tryMatch] is
    called is, when the call returns, either still in the pool and as it
    was, or in a chat. *)
Theorem tryMatch_keeps_searchers (s : State) (x : string) (u : User) :
  x ∈ waitingPool s → truthy x = true →
  users s !! x = Some u → state u = SEARCHING →
  (x ∈ waitingPool (tryMatch s).1 ∧ users (tryMatch s).1 !! x = Some u)
  ∨ state <$> users (tryMatch s).1 !! x = Some IN_CHAT.
Proof. apply tryMatch_searcher_stays. Qed.

(** A, first of three, is paired by the call. *)
Lemma tryMatch_keeps_searchers_witness :
  "A" ∈ waitingPool three_waiting
  ∧ state <$> users (tryMatch three_waiting).1 !! "A" = Some IN_CHAT.
Proof.
  assert (Hin : "A" ∈ waitingPool three_waiting) by apply list_elem_of_here.
  split; [exact Hin|].
  destruct (tryMatch_keeps_searchers three_waiting "A"
              (begin_search (profile_of "A") new_user) Hin)
    as [[Hp _]|Hc]; [reflexivity..| |exact Hc].
  exfalso. change (waitingPool (tryMatch three_waiting).1) with (@nil string) in Hp.
  by apply elem_of_nil in Hp.
Defined.

Lemma tryMatch_announced s :
  ∃ ps : list Pairing,
    (tryMatch s).2 = concat (pairing_emits <$> ps)
    ∧ Forall (announced (tryMatch s).1) ps.
Proof.
  apply (tryMatch_ind (λ s res, ∃ ps : list Pairing,
    res.2 = concat (pairing_emits <$> ps) ∧ Forall (announced res.1) ps)).
  - intros s0 _. exists []. by split.
  - by intros s0 a b rest _ _ s1 IH.
  - by intros s0 a b rest _ _ _ s1 IH.
  - intros s0 a b rest E Ha Hb s1 (ps & He & Hp).
    apply not_searching_false in Ha as (ua & Hua & Hsa).
    apply not_searching_false in Hb as (ub & Hub & Hsb).
    set (room := uuidv4 (next_uuid s0)).
    assert (Ha1 : users (tryMatch s1).1 !! a = Some (enter_chat room ua)).
    { apply tryMatch_users_in_chat; [|done]. subst s1.
      rewrite pair_up_users, bool_decide_eq_true_2 by auto. by rewrite Hua. }
    assert (Hb1 : users (tryMatch s1).1 !! b = Some (enter_chat room ub)).
    { apply tryMatch_users_in_chat; [|done]. subst s1.
      rewrite pair_up_users, bool_decide_eq_true_2 by auto. by rewrite Hub. }
    exists ({| pairing_room := room; popped_first := a; popped_second := b;
               first_profile := users s0 !! a ≫= profile;
               second_profile := users s0 !! b ≫= profile |} :: ps).
    cbn [fst snd]. split; [by rewrite He|].
    apply Forall_cons. split; [|done].
    unfold announced. cbn [pairing_room popped_first popped_second
                           first_profile second_profile].
    split_and!.
    + rewrite tryMatch_rooms_other.
      * subst s1. simpl. apply lookup_insert_eq.
      * subst s1. simpl. intros n Hle Heq. apply uuidv4_inj in Heq. lia.
    + by exists (enter_chat room ua).
    + by exists (enter_chat room ub).
    + by rewrite Ha1, Hua.
    + by rewrite Hb1, Hub.
Qed.

(** X3.  A [match-found] tells the truth.  The events one call of
    [tryMatch] emits are the pairs of [match-found] of a list of pairings,
    and when the call returns every one of them is so: the registry lists
    the two connections in that room, in that order, both are in a chat with
    that [roomId], and the profile each is sent is the profile of the
    other. *)
Theorem match_found_is_accurate (s : State) :
  ∃ ps : list Pairing,
    (tryMatch s).2 = concat (pairing_emits <$> ps)
    ∧ Forall (announced (tryMatch s).1) ps.
Proof. apply tryMatch_announced. Qed.

Lemma tryMatch_users_outside_pool s x :
  x ∉ waitingPool s → users (tryMatch s).1 !! x = users s !! x.
Proof.
  apply (tryMatch_ind (λ s res, x ∉ waitingPool s → users res.1 !! x = users s !! x)).
  - done.
  - intros s0 a b rest E _ s1 IH Hout. apply IH. subst s1. simpl.
    intros Hin. apply Hout. rewrite E.
    eapply elem_of_sublist; [exact Hin|apply unshift_truthy_sublist].
  - intros s0 a b rest E _ _ s1 IH Hout. apply IH. subst s1. simpl.
    intros Hin. apply Hout. rewrite E.
    eapply elem_of_sublist; [exact Hin|apply unshift_truthy_sublist'].
  - intros s0 a b rest E _ _ s1 IH Hout. cbn [fst]. rewrite IH.
    + subst s1. rewrite pair_up_users, bool_decide_eq_false_2; [done|].
      rewrite E in Hout. intros [-> | ->]; apply Hout.
      * apply list_elem_of_here.
      * apply list_elem_of_further, list_elem_of_here.
    + subst s1. simpl. intros Hin. apply Hout. rewrite E.
      by do 2 apply list_elem_of_further.
Qed.

Lemma tryMatch_profiles s x :
  users (tryMatch s).1 !! x ≫= profile = users s !! x ≫= profile
  ∧ users (tryMatch s).1 !! x ≫= persistentId = users s !! x ≫= persistentId.
Proof.
  apply (tryMatch_ind (λ s res,
    users res.1 !! x ≫= profile = users s !! x ≫= profile
    ∧ users res.1 !! x ≫= persistentId = users s !! x ≫= persistentId)); try done.
  intros s0 a b rest _ _ _ s1 [IH1 IH2]. cbn [fst]. rewrite IH1, IH2. subst s1.
  rewrite pair_up_users. case_bool_decide; [|done].
  by destruct (users s0 !! x).
Qed.

(** X4.  What the Matchmaker leaves alone.  One call of [tryMatch] changes
    no [User] whose identifier is not in the pool and none that is not
    searching, changes the profile and the persistent identity of nobody,
    and, the generator returning unused identifiers, keeps every room of
    the registry as it is. *)
Theorem tryMatch_frame (s : State) :
  uuid_fresh s →
  (∀ x, x ∉ waitingPool s → users (tryMatch s).1 !! x = users s !! x)
  ∧ (∀ x u, users s !! x = Some u → state u ≠ SEARCHING →
       users (tryMatch s).1 !! x = Some u)
  ∧ (∀ x, users (tryMatch s).1 !! x ≫= profile = users s !! x ≫= profile
          ∧ users (tryMatch s).1 !! x ≫= persistentId
            = users s !! x ≫= persistentId)
  ∧ rooms s ⊆ rooms (tryMatch s).1.
Proof.
  intros Hfresh. split_and!.
  - apply tryMatch_users_outside_pool.
  - apply tryMatch_users_not_searching.
  - apply tryMatch_profiles.
  - apply map_subseteq_spec. intros r room Hr.
    rewrite tryMatch_rooms_other; [done|].
    intros n Hn ->. rewrite Hfresh in Hr; done.
Qed.

(** In the state where Z is paired with W and C waits, a call of the
    Matchmaker on a pool of C and a stranger to the registry. *)
Lemma tryMatch_frame_witness :
  uuid_fresh (run init one_waiting)
  ∧ rooms (run init one_waiting)
    ⊆ rooms (tryMatch (set_pool (cons "Q") (run init one_waiting))).1.
Proof.
  assert (H : uuid_fresh (run init one_waiting)) by apply run_ids_issued.
  split; [exact H|].
  pose proof (tryMatch_frame (set_pool (cons "Q") (run init one_waiting)) H)
    as (_ & _ & _ & Hrooms).
  exact Hrooms.
Defined.

(** ** The two copies of [handleDisconnect] *)

Lemma delete_room_of_known s socketId user r :
  users s !! socketId = Some user → roomId user = Some r →
  Standalone.delete_room_of socketId s = set_rooms (delete r) s.
Proof.
  intros Hu Hr. unfold Standalone.delete_room_of. rewrite Hu. simpl. by rewrite Hr.
Qed.

(** X5.  The [handleDisconnect] of the standalone copy, which reads
    [user.roomId] again after the Matchmaker has run, does in every state
    what the [handleDisconnect] of the server does: the Matchmaker never
    touches the object of the user that is leaving. *)
Theorem standalone_handleDisconnect_agrees (s : State) (socketId : string) :
  Standalone.handleDisconnect s socketId = handleDisconnect s socketId.
Proof.
  unfold Standalone.handleDisconnect, handleDisconnect.
  destruct (users s !! socketId) as [user|] eqn:Hu; [|done].
  set (s1 := set_pool (splice_out socketId) s).
  destruct (live_room s1 user) as [[r room]|] eqn:Hl; [|done].
  apply live_room_Some in Hl as (Hst & Hr & _ & _).
  assert (Hu1 : users s1 !! socketId = Some user) by done.
  destruct (find_partner room socketId) as [p|] eqn:Hf.
  - apply find_partner_ne in Hf.
    destruct (users s1 !! p) as [partner|].
    + unfold then_tryMatch.
      destruct (tryMatch (disconnect_requeue s1 p).1) as [s4 out] eqn:Et.
      rewrite (delete_room_of_known s4 socketId user r); [done| |done].
      change s4 with (s4, out).1. rewrite <- Et.
      apply tryMatch_users_in_chat; [|done].
      simpl. by rewrite lookup_alter_ne.
    + by rewrite (delete_room_of_known s1 socketId user r).
  - by rewrite (delete_room_of_known s1 socketId user r).
Qed.

(** ** Connections that come and go *)

Lemma run_app s es1 es2 : run s (es1 ++ es2) = run (run s es1) es2.
Proof. unfold run. by rewrite foldl_app. Qed.

(** X6.  A connection that does nothing.  In a state the engine can be in,
    a new connection (its identifier names no [User] yet) that disconnects
    at once leaves the state exactly as it was, and nothing is emitted. *)
Theorem connect_then_disconnect (es : list Event) (socketId : string) :
  users (run init es) !! socketId = None →
  run init (es ++ [Connection socketId; Disconnect socketId]) = run init es
  ∧ (step (run init es) (Connection socketId)).2 = []
  ∧ (step (step (run init es) (Connection socketId)).1 (Disconnect socketId)).2 = [].
Proof.
  intros Hnew. pose proof (run_pool_inv es) as [_ Hlive].
  assert (Hout : socketId ∉ waitingPool (run init es)).
  { intros Hin. apply Hlive in Hin as [u Hu]. congruence. }
  rewrite run_app. destruct (run init es) as [us pool rs n]. simpl in *.
  unfold run. simpl. unfold handleDisconnect. simpl.
  rewrite lookup_insert_eq. simpl. unfold set_users, set_pool. simpl.
  rewrite delete_insert_eq, delete_id by done.
  by rewrite splice_out_absent.
Qed.

(** Q comes and goes while Z is paired with W and C waits. *)
Lemma connect_then_disconnect_witness :
  users (run init one_waiting) !! "Q" = None
  ∧ run init (one_waiting ++ [Connection "Q"; Disconnect "Q"]) = run init one_waiting.
Proof.
  assert (H : users (run init one_waiting) !! "Q" = None) by reflexivity.
  split; [exact H|]. apply (connect_then_disconnect one_waiting "Q" H).
Defined.

(** X7.  An event on a connection the registry does not know changes
    nothing and emits nothing, whatever it is, but for an offer, an answer
    or an ICE candidate, which is relayed all the same. *)
Theorem unknown_connection_is_ignored
    (s : State) (socketId partnerId payload log : string) (p : Profile) :
  users s !! socketId = None →
  step s (StartSearching socketId p) = (s, [])
  ∧ step s (StopSearching socketId) = (s, [])
  ∧ step s (SkipChat socketId) = (s, [])
  ∧ step s (StopChat socketId) = (s, [])
  ∧ step s (ChatMessageEv socketId partnerId payload) = (s, [])
  ∧ step s (InitiateReport socketId partnerId payload log) = (s, [])
  ∧ step s (Disconnect socketId) = (s, [])
  ∧ step s (OfferEv socketId partnerId payload)
    = (s, [emit partnerId (offer payload socketId)]).
Proof.
  intros H. simpl.
  unfold start_searching, stop_searching, skip_chat, stop_chat, paired_with,
    chat_message_handler, initiate_report, report_guard, handleDisconnect, relay.
  rewrite H. done.
Qed.

(** Q, unknown to the engine that has just started. *)
Lemma unknown_connection_is_ignored_witness :
  users init !! "Q" = None
  ∧ step init (SkipChat "Q") = (init, [])
  ∧ step init (Disconnect "Q") = (init, []).
Proof.
  assert (H : users init !! "Q" = None) by reflexivity.
  destruct (unknown_connection_is_ignored init "Q" "P" "m" "l" (profile_of "Q") H)
    as (_ & _ & Hskip & _ & _ & _ & Hdisc & _).
  split_and!; [exact H|exact Hskip|exact Hdisc].
Defined.

Lemma tryMatch_targets s :
  Forall (λ e, ∃ t, effect_target e = Some t ∧ t ∈ waitingPool s) (tryMatch s).2.
Proof.
  destruct (tryMatch_pairings s) as (ps & -> & Hp & _).
  induction Hp as [|p ps [Hsub _] _ IH]; simpl; [constructor|].
  repeat apply Forall_cons_2; [..|exact IH].
  - exists (popped_first p). split; [done|].
    eapply elem_of_sublist; [|exact Hsub]. apply list_elem_of_here.
  - exists (popped_second p). split; [done|].
    eapply elem_of_sublist; [|exact Hsub].
    apply list_elem_of_further, list_elem_of_here.
Qed.

(** X8.  Nothing is sent to a connection that has gone.  Whatever the
    events before were, none of the events a disconnect emits goes to the
    connection that disconnects. *)
Theorem disconnect_never_notifies_the_leaver (es : list Event) (socketId : string) :
  Forall (λ e, effect_target e ≠ Some socketId)
         (step (run init es) (Disconnect socketId)).2.
Proof.
  pose proof (run_pool_inv es) as [Hlen _]. set (s := run init es) in *.
  pose proof (splice_out_NoDup socketId _ (short_NoDup _ Hlen)) as Hout.
  simpl.
  destruct (handleDisconnect_cases s socketId)
    as [[_ ->]|[(user & _ & _ & ->)|[(user & r & room & _ & _ & _ & ->)
       |[(user & r & room & p & _ & _ & Hf & _ & ->)
        |(user & r & room & p & _ & _ & Hf & _ & ->)]]]]; simpl;
    try constructor.
  - simpl. intros [= ->]. by apply find_partner_ne in Hf.
  - constructor.
  - simpl. intros [= ->]. by apply find_partner_ne in Hf.
  - apply Forall_cons. split.
    + simpl. intros [= ->]. by apply find_partner_ne in Hf.
    + eapply Forall_impl; [apply tryMatch_targets|].
      intros e (t & Ht & Hin) Heq. simpl in Hin.
      assert (t = socketId) as -> by congruence.
      apply elem_of_cons in Hin as [->|Hin]; [|done].
      by apply find_partner_ne in Hf.
Qed.

(** ** What every run keeps *)

(** X9.  Nobody waits with somebody else.  Whatever the events were,
    between two of them the Waiting Pool holds one identifier at most: every
    handler that adds to the pool runs the Matchmaker before it returns. *)
Theorem waiting_pool_holds_one_at_most (es : list Event) :
  length (waitingPool (run init es)) ≤ 1.
Proof. apply run_pool_inv. Qed.

Lemma well_shaped_mono n n' u : n ≤ n' → well_shaped n u → well_shaped n' u.
Proof.
  intros Hle (H1 & H2 & H3). split_and!; [|done..].
  intros Hst. destruct (H1 Hst) as (k & Hk & Hr). exists k. split; [lia|done].
Qed.

Lemma shaped_alter n (m : gmap string User) f key :
  (∀ u, m !! key = Some u → well_shaped n u → well_shaped n (f u)) →
  map_Forall (λ _ u, well_shaped n u) m →
  map_Forall (λ _ u, well_shaped n u) (alter f key m).
Proof.
  intros Hf H x u Hx.
  apply lookup_alter_Some in Hx as [[<- (u0 & Hu0 & ->)]|[_ Hx]].
  - apply Hf; [done|]. by apply (H key).
  - by apply (H x).
Qed.

Lemma well_shaped_to_searching n u : well_shaped n u → well_shaped n (to_searching u).
Proof. intros (_ & _ & H3). by split_and!. Qed.

Lemma well_shaped_to_idle n u : well_shaped n u → well_shaped n (to_idle u).
Proof. intros (_ & _ & H3). by split_and!. Qed.

Lemma well_shaped_enter_chat n k u :
  k < n → well_shaped n u → well_shaped n (enter_chat (uuidv4 k) u).
Proof.
  intros Hk (_ & _ & H3). split_and!; [|done..].
  intros _. by exists k.
Qed.

Lemma tryMatch_shaped s :
  map_Forall (λ _ u, well_shaped (next_uuid s) u) (users s) →
  map_Forall (λ _ u, well_shaped (next_uuid (tryMatch s).1) u) (users (tryMatch s).1).
Proof.
  apply (tryMatch_ind (λ s res,
    map_Forall (λ _ u, well_shaped (next_uuid s) u) (users s) →
    map_Forall (λ _ u, well_shaped (next_uuid res.1) u) (users res.1))); try done.
  intros s0 a b rest _ _ _ s1 IH H. apply IH. subst s1. simpl.
  do 2 (apply shaped_alter; [intros u _; apply well_shaped_enter_chat; lia|]).
  intros x u Hx. eapply well_shaped_mono; [|by apply (H x)]. lia.
Qed.

Lemma step_shaped s e :
  map_Forall (λ _ u, well_shaped (next_uuid s) u) (users s) →
  map_Forall (λ _ u, well_shaped (next_uuid (step s e).1) u) (users (step s e).1).
Proof.
  intros H. destruct e; simpl; try done.
  - apply map_Forall_insert_2; [|done]. by split_and!.
  - unfold start_searching. destruct (users s !! socketId) as [user|] eqn:Hu; [|done].
    destruct (bool_decide (state user = IDLE) || bool_decide (state user = SEARCHING))
      eqn:Hst; [|done].
    rewrite then_tryMatch_fst. apply tryMatch_shaped. simpl.
    apply shaped_alter; [|done]. intros u Hu' (_ & H2 & _).
    assert (u = user) as -> by congruence.
    assert (Hnc : state user ≠ IN_CHAT) by (intros E; by rewrite E in Hst).
    split_and!; [done| |done]. intros _. simpl. by apply H2.
  - unfold stop_searching. destruct (users s !! socketId) as [user|] eqn:Hu; [|done].
    case_bool_decide as Hst; [|done]. simpl.
    apply shaped_alter; [|done]. intros u Hu' (_ & H2 & H3).
    assert (u = user) as -> by congruence.
    split_and!; [done| |done]. intros _. simpl. apply H2. congruence.
  - unfold skip_chat. destruct (paired_with s socketId) as [[r p]|]; [|done].
    rewrite then_tryMatch_fst. apply tryMatch_shaped.
    unfold skip_chat_cleanup. destruct (users s !! p); simpl;
      repeat (apply shaped_alter; [intros ? _; apply well_shaped_to_searching|]); done.
  - unfold stop_chat. destruct (paired_with s socketId) as [[r p]|]; [|done].
    rewrite then_tryMatch_fst. apply tryMatch_shaped.
    unfold stop_chat_cleanup. destruct (users s !! p); simpl;
      repeat (apply shaped_alter; [intros ? _; apply well_shaped_to_searching|]);
      (apply shaped_alter; [intros ? _; apply well_shaped_to_idle|]); done.
  - unfold chat_message_handler. destruct (users s !! socketId); [|done].
    by destruct (_ && _).
  - unfold initiate_report.
    destruct (report_guard s socketId partnerId) as [[[user partner] r]|]; [|done].
    destruct (then_tryMatch _) as [s' out] eqn:Et. simpl.
    change s' with (s', out).1. rewrite <- Et, then_tryMatch_fst.
    apply tryMatch_shaped. simpl.
    apply shaped_alter; [intros ? _; apply well_shaped_to_searching|].
    apply shaped_alter; [intros ? _; apply well_shaped_to_idle|]. done.
  - destruct (handleDisconnect_cases s socketId)
      as [[_ ->]|[(user & _ & _ & ->)|[(user & r & room & _ & _ & _ & ->)
         |[(user & r & room & p & _ & _ & _ & _ & ->)
          |(user & r & room & p & _ & _ & _ & _ & ->)]]]]; simpl;
      [done|by apply map_Forall_delete..|].
    apply map_Forall_delete.
    apply (tryMatch_shaped (set_pool (cons p) (set_users (alter to_searching p)
                              (set_pool (splice_out socketId) s)))).
    simpl. apply shaped_alter; [intros ? _; apply well_shaped_to_searching|done].
Qed.

Lemma run_shaped es :
  map_Forall (λ _ u, well_shaped (next_uuid (run init es)) u) (users (run init es)).
Proof.
  induction es as [|e es IH] using rev_ind.
  - apply map_Forall_empty.
  - rewrite run_snoc. by apply step_shaped.
Qed.

(** X10.  The fields of a [User] fit its state.  Whatever the events were,
    every [User] of the registry has a [roomId] (not empty: one the
    generator returned) exactly when its state is [IN_CHAT], and its
    [persistentId] is the [id] of its profile, both set or both absent. *)
Theorem user_fields_fit_the_state (es : list Event) :
  map_Forall (λ _ u, well_shaped (next_uuid (run init es)) u)
             (users (run init es)).
Proof. apply run_shaped. Qed.

(** ** Honest runs *)

(** X11.  As long as every report names the partner of the reporter, and
    the transport gives every connection an identifier of its own, not
    empty: after every event, every room holds two different connections
    that are both in a chat with the [roomId] of that room, every user in a
    chat has the [roomId] of a room that lists it, no identifier is twice in
    the Waiting Pool, and every identifier in it names a searching user. *)
Theorem honest_runs_keep_rooms_and_pool (es : list Event) :
  honest_run init es →
  room_invariant (run init es)
  ∧ NoDup (waitingPool (run init es))
  ∧ Forall (λ x, state <$> users (run init es) !! x = Some SEARCHING)
           (waitingPool (run init es)).
Proof. apply honest_run_room_invariant. Qed.

(** The run that pairs Z with W and leaves C waiting. *)
Lemma honest_runs_keep_rooms_and_pool_witness :
  honest_run init one_waiting
  ∧ room_invariant (run init one_waiting)
  ∧ waitingPool (run init one_waiting) = ["C"].
Proof.
  assert (H : honest_run init one_waiting) by (simpl; split_and!; done).
  destruct (honest_runs_keep_rooms_and_pool one_waiting H) as (Hr & _ & _).
  split_and!; [exact H|exact Hr|reflexivity].
Defined.

Lemma handleDisconnect_removes s socketId :
  users (handleDisconnect s socketId).1 !! socketId = None.
Proof.
  destruct (handleDisconnect_cases s socketId)
    as [[? ->]|[(user & _ & _ & ->)|[(user & r & room & _ & _ & _ & ->)
       |[(user & r & room & p & _ & _ & _ & _ & ->)
        |(user & r & room & p & _ & _ & _ & _ & ->)]]]]; simpl;
    [done|by rewrite lookup_delete_eq..].
Qed.

(** X12.  A connection that has gone is named nowhere.  In an honest run
    that ends with the disconnect of a connection, that connection is then
    no key of the registry of users, no entry of the Waiting Pool, and no
    member of any room. *)
Theorem disconnect_leaves_no_reference (es : list Event) (socketId : string) :
  honest_run init (es ++ [Disconnect socketId]) →
  users (run init (es ++ [Disconnect socketId])) !! socketId = None
  ∧ (socketId ∉ waitingPool (run init (es ++ [Disconnect socketId])))
  ∧ (∀ r room, rooms (run init (es ++ [Disconnect socketId])) !! r = Some room →
       ¬ member room socketId).
Proof.
  intros Hh. pose proof (run_consistent _ init init_consistent Hh) as Hc.
  assert (Hgone : users (run init (es ++ [Disconnect socketId])) !! socketId = None).
  { rewrite run_snoc. simpl. apply handleDisconnect_removes. }
  split_and!.
  - done.
  - intros Hin. destruct (c_pool _ Hc _ Hin) as (u & Hu & _). congruence.
  - intros r room Hr Hm. destruct (c_rooms _ Hc) as [H1 _].
    destruct (H1 r room Hr) as (_ & (ua & Hua & _) & (ub & Hub & _)).
    destruct Hm as [-> | ->]; congruence.
Qed.

(** W disconnects while it is paired with Z and C waits: Z is paired with
    C, and W is named nowhere. *)
Lemma disconnect_leaves_no_reference_witness :
  honest_run init (one_waiting ++ [Disconnect "W"])
  ∧ users (run init (one_waiting ++ [Disconnect "W"])) !! "W" = None
  ∧ rooms (run init (one_waiting ++ [Disconnect "W"])) !! "room-1"
    = Some {| room_users := ("Z", "C") |}.
Proof.
  assert (H : honest_run init (one_waiting ++ [Disconnect "W"]))
    by (simpl; split_and!; done).
  destruct (disconnect_leaves_no_reference one_waiting "W" H) as (Hu & _ & _).
  split_and!; [exact H|exact Hu|reflexivity].
Defined.

(** ** Who is paired next *)

(** The loop on a pool whose first two entries name searching users and
    that has less than two more. *)
Lemma tryMatch_pair_then_exit s a b rest ua ub :
  waitingPool s = a :: b :: rest → length rest < 2 →
  users s !! a = Some ua → state ua = SEARCHING →
  users s !! b = Some ub → state ub = SEARCHING →
  tryMatch s = (pair_up s a b rest, match_emits s a b).
Proof.
  intros E Hlen Ha Hsa Hb Hsb. rewrite tryMatch_unfold, E, Ha, Hb. simpl.
  rewrite !bool_decide_eq_true_2 by done. simpl.
  rewrite tryMatch_short by done. reflexivity.
Qed.

Lemma pair_up_paired_in s a b rest ua ub :
  users s !! a = Some ua → users s !! b = Some ub →
  paired_in (pair_up s a b rest) (uuidv4 (next_uuid s)) a b.
Proof.
  intros Ha Hb. split_and!.
  - simpl. apply lookup_insert_eq.
  - exists (enter_chat (uuidv4 (next_uuid s)) ua). split; [|done].
    rewrite pair_up_users, bool_decide_eq_true_2 by auto. by rewrite Ha.
  - exists (enter_chat (uuidv4 (next_uuid s)) ub). split; [|done].
    rewrite pair_up_users, bool_decide_eq_true_2 by auto. by rewrite Hb.
Qed.

Lemma paired_in_forget s room a b socketId r :
  paired_in s room a b → r ≠ room → socketId ≠ a → socketId ≠ b →
  paired_in (set_users (delete socketId) (set_rooms (delete r) s)) room a b.
Proof.
  intros (Hr & (ua & Ha & Ha') & (ub & Hb & Hb')) Hne Hna Hnb. split_and!.
  - simpl. by rewrite lookup_delete_ne.
  - exists ua. split; [|done]. simpl. by rewrite lookup_delete_ne.
  - exists ub. split; [|done]. simpl. by rewrite lookup_delete_ne.
Qed.

Lemma splice_out_other x y : x ≠ y → splice_out x [y] = [y].
Proof.
  intros H. apply splice_out_absent. intros Hin.
  by apply list_elem_of_singleton in Hin.
Qed.

(** What [paired_with] and a searching waiter tell. *)
Lemma deserted_facts s socketId r p c uc :
  paired_with s socketId = Some (r, p) →
  users s !! c = Some uc → state uc = SEARCHING →
  rooms s !! uuidv4 (next_uuid s) = None →
  ∃ user room, users s !! socketId = Some user ∧ live_room s user = Some (r, room)
    ∧ find_partner room socketId = Some p ∧ p ≠ socketId ∧ c ≠ socketId
    ∧ r ≠ uuidv4 (next_uuid s).
Proof.
  intros Hpaired Hc Hsc Hnew.
  apply paired_with_Some in Hpaired as (user & room & Hu & Hl & Hf).
  exists user, room. split_and!; [done..|by eapply find_partner_ne| |].
  - apply live_room_Some in Hl as (Hst & _). intros ->. congruence.
  - apply live_room_Some in Hl as (_ & _ & _ & Hroom). intros ->. congruence.
Qed.

Lemma deserted_disconnect s socketId r p c up uc :
  paired_with s socketId = Some (r, p) → users s !! p = Some up →
  waitingPool s = [c] → users s !! c = Some uc → state uc = SEARCHING → c ≠ p →
  rooms s !! uuidv4 (next_uuid s) = None →
  step s (Disconnect socketId)
  = (set_users (delete socketId) (set_rooms (delete r)
       (pair_up (set_users (alter to_searching p) s) p c [])),
     [emit p partner_disconnected; emit p auto_searching;
      emit p (match_found (uuidv4 (next_uuid s)) c true (profile uc));
      emit c (match_found (uuidv4 (next_uuid s)) p false (profile up))]).
Proof.
  intros Hpaired Hp Hpool Hc Hsc Hcp Hnew.
  destruct (deserted_facts s socketId r p c uc Hpaired Hc Hsc Hnew)
    as (user & room & Hu & Hl & Hf & Hps & Hcs & Hr).
  simpl. unfold handleDisconnect. rewrite Hu.
  change (live_room (set_pool (splice_out socketId) s) user) with (live_room s user).
  rewrite Hl, Hf.
  change (users (set_pool (splice_out socketId) s) !! p) with (users s !! p).
  rewrite Hp. unfold then_tryMatch.
  rewrite (tryMatch_pair_then_exit _ p c [] (to_searching up) uc); simpl;
    rewrite ?Hpool, ?splice_out_other, ?lookup_alter_eq, ?Hp,
      ?lookup_alter_ne, ?Hc by done; try done; [|lia].
  unfold match_emits. simpl.
  rewrite lookup_alter_eq, Hp, lookup_alter_ne, Hc by done.
  reflexivity.
Qed.

Lemma deserted_stop_chat s socketId r p c up uc :
  paired_with s socketId = Some (r, p) → users s !! p = Some up →
  waitingPool s = [c] → users s !! c = Some uc → state uc = SEARCHING → c ≠ p →
  rooms s !! uuidv4 (next_uuid s) = None →
  step s (StopChat socketId)
  = (pair_up (stop_chat_cleanup s socketId r p).1 p c [],
     [emit p partner_disconnected; emit p auto_searching;
      emit p (match_found (uuidv4 (next_uuid s)) c true (profile uc));
      emit c (match_found (uuidv4 (next_uuid s)) p false (profile up))]).
Proof.
  intros Hpaired Hp Hpool Hc Hsc Hcp Hnew.
  destruct (deserted_facts s socketId r p c uc Hpaired Hc Hsc Hnew)
    as (user & room & Hu & Hl & Hf & Hps & Hcs & Hr).
  simpl. unfold stop_chat. rewrite Hpaired. unfold then_tryMatch, stop_chat_cleanup.
  rewrite Hp. cbn [fst snd].
  assert (Hq : unshift_absent p (waitingPool s) = [p; c]).
  { rewrite Hpool. unfold unshift_absent, includes.
    rewrite bool_decide_eq_false_2; [done|].
    intros Hin. apply list_elem_of_singleton in Hin. congruence. }
  rewrite (tryMatch_pair_then_exit _ p c [] (to_searching up) uc); simpl;
    rewrite ?Hq, ?lookup_alter_eq, ?lookup_alter_ne, ?Hp, ?Hc by done;
    try done; [|lia].
  unfold match_emits. simpl.
  rewrite lookup_alter_eq, !lookup_alter_ne, Hp, Hc by done.
  reflexivity.
Qed.

Lemma deserted_skip_chat s socketId r p c up uc :
  paired_with s socketId = Some (r, p) → users s !! p = Some up →
  waitingPool s = [c] → users s !! c = Some uc → state uc = SEARCHING → c ≠ p →
  rooms s !! uuidv4 (next_uuid s) = None →
  step s (SkipChat socketId)
  = (pair_up (skip_chat_cleanup s socketId r p).1 p c [socketId],
     [emit p partner_disconnected; emit socketId auto_searching;
      emit p auto_searching;
      emit p (match_found (uuidv4 (next_uuid s)) c true (profile uc));
      emit c (match_found (uuidv4 (next_uuid s)) p false (profile up))]).
Proof.
  intros Hpaired Hp Hpool Hc Hsc Hcp Hnew.
  destruct (deserted_facts s socketId r p c uc Hpaired Hc Hsc Hnew)
    as (user & room & Hu & Hl & Hf & Hps & Hcs & Hr).
  simpl. unfold skip_chat. rewrite Hpaired. unfold then_tryMatch, skip_chat_cleanup.
  rewrite Hp. cbn [fst snd].
  assert (Hq : unshift_absent p (push_absent socketId (waitingPool s))
               = [p; c; socketId]).
  { rewrite Hpool. unfold unshift_absent, push_absent, includes.
    rewrite (bool_decide_eq_false_2 (socketId ∈ [c])).
    - simpl. rewrite bool_decide_eq_false_2; [done|].
      intros Hin. apply elem_of_cons in Hin as [?|Hin]; [congruence|].
      apply list_elem_of_singleton in Hin. congruence.
    - intros Hin. apply list_elem_of_singleton in Hin. congruence. }
  rewrite (tryMatch_pair_then_exit _ p c [socketId] (to_searching up) uc); simpl;
    rewrite ?Hq, ?lookup_alter_eq, ?lookup_alter_ne, ?Hp, ?Hc by done;
    try done; [|lia].
  unfold match_emits. simpl.
  rewrite lookup_alter_eq, !lookup_alter_ne, Hp, Hc by done.
  reflexivity.
Qed.

Lemma stop_chat_cleanup_next s socketId r p :
  next_uuid (stop_chat_cleanup s socketId r p).1 = next_uuid s.
Proof. unfold stop_chat_cleanup. by destruct (users s !! p). Qed.

Lemma skip_chat_cleanup_next s socketId r p :
  next_uuid (skip_chat_cleanup s socketId r p).1 = next_uuid s.
Proof. unfold skip_chat_cleanup. by destruct (users s !! p). Qed.

Lemma stop_chat_cleanup_users s socketId r p up :
  users s !! p = Some up → p ≠ socketId →
  users (stop_chat_cleanup s socketId r p).1
  = alter to_searching p (alter to_idle socketId (users s)).
Proof. intros Hp _. unfold stop_chat_cleanup. by rewrite Hp. Qed.

Lemma skip_chat_cleanup_users s socketId r p up :
  users s !! p = Some up → p ≠ socketId →
  users (skip_chat_cleanup s socketId r p).1
  = alter to_searching p (alter to_searching socketId (users s)).
Proof. intros Hp _. unfold skip_chat_cleanup. by rewrite Hp. Qed.

(** X13.  The deserted partner is served first.  Let [socketId] be in a
    room with [partnerId], and let one searching user [c] wait in the pool.
    When [socketId] disconnects, or stops the chat, or skips it, the partner
    is told so, and is paired at once with [c] in a new room, the partner
    first: it is the one that gets [initiator: true].  After a disconnect or
    a stop the pool is empty; after a skip the one that skipped waits in
    it. *)
Theorem deserted_partner_is_paired_first
    (s : State) (socketId r partnerId c : string) (up uc : User) :
  paired_with s socketId = Some (r, partnerId) →
  users s !! partnerId = Some up →
  waitingPool s = [c] → users s !! c = Some uc → state uc = SEARCHING →
  c ≠ partnerId →
  rooms s !! uuidv4 (next_uuid s) = None →
  let room := uuidv4 (next_uuid s) in
  let found := [emit partnerId (match_found room c true (profile uc));
                emit c (match_found room partnerId false (profile up))] in
  ((step s (Disconnect socketId)).2
     = [emit partnerId partner_disconnected; emit partnerId auto_searching] ++ found
   ∧ paired_in (step s (Disconnect socketId)).1 room partnerId c
   ∧ waitingPool (step s (Disconnect socketId)).1 = [])
  ∧ ((step s (StopChat socketId)).2
       = [emit partnerId partner_disconnected; emit partnerId auto_searching] ++ found
     ∧ paired_in (step s (StopChat socketId)).1 room partnerId c
     ∧ waitingPool (step s (StopChat socketId)).1 = [])
  ∧ ((step s (SkipChat socketId)).2
       = [emit partnerId partner_disconnected; emit socketId auto_searching;
          emit partnerId auto_searching] ++ found
     ∧ paired_in (step s (SkipChat socketId)).1 room partnerId c
     ∧ waitingPool (step s (SkipChat socketId)).1 = [socketId]).
Proof.
  intros Hpaired Hp Hpool Hc Hsc Hcp Hnew room found.
  destruct (deserted_facts s socketId r partnerId c uc Hpaired Hc Hsc Hnew)
    as (user & room0 & Hu & Hl & Hf & Hps & Hcs & Hr).
  rewrite (deserted_disconnect s socketId r partnerId c up uc) by done.
  rewrite (deserted_stop_chat s socketId r partnerId c up uc) by done.
  rewrite (deserted_skip_chat s socketId r partnerId c up uc) by done.
  cbn [fst snd]. split_and!; try reflexivity.
  - apply paired_in_forget; [|done|congruence|congruence].
    apply (pair_up_paired_in (set_users (alter to_searching partnerId) s)
             partnerId c [] (to_searching up) uc); simpl.
    + by rewrite lookup_alter_eq, Hp.
    + by rewrite lookup_alter_ne.
  - unfold room. rewrite <- (stop_chat_cleanup_next s socketId r partnerId).
    apply (pair_up_paired_in _ partnerId c [] (to_searching up) uc);
      rewrite (stop_chat_cleanup_users s socketId r partnerId up) by done.
    + by rewrite lookup_alter_eq, lookup_alter_ne, Hp.
    + by rewrite !lookup_alter_ne.
  - unfold room. rewrite <- (skip_chat_cleanup_next s socketId r partnerId).
    apply (pair_up_paired_in _ partnerId c [socketId] (to_searching up) uc);
      rewrite (skip_chat_cleanup_users s socketId r partnerId up) by done.
    + by rewrite lookup_alter_eq, lookup_alter_ne, Hp.
    + by rewrite !lookup_alter_ne.
Qed.

(** W leaves Z while C waits: Z is paired with C, Z first. *)
Lemma deserted_partner_is_paired_first_witness :
  paired_with (run init one_waiting) "W" = Some ("room-0", "Z")
  ∧ waitingPool (run init one_waiting) = ["C"]
  ∧ (step (run init one_waiting) (Disconnect "W")).2
    = [emit "Z" partner_disconnected; emit "Z" auto_searching;
       emit "Z" (match_found "room-1" "C" true (Some (profile_of "C")));
       emit "C" (match_found "room-1" "Z" false (Some (profile_of "Z")))]
  ∧ waitingPool (step (run init one_waiting) (SkipChat "W")).1 = ["W"].
Proof.
  assert (H1 : paired_with (run init one_waiting) "W" = Some ("room-0", "Z"))
    by reflexivity.
  assert (H2 : waitingPool (run init one_waiting) = ["C"]) by reflexivity.
  destruct (deserted_partner_is_paired_first (run init one_waiting)
              "W" "room-0" "Z" "C"
              (enter_chat "room-0" (begin_search (profile_of "Z") new_user))
              (begin_search (profile_of "C") new_user) H1)
    as ((Hd & _ & _) & _ & (_ & _ & Hs)); [reflexivity..|done|reflexivity|].
  split_and!; [exact H1|exact H2|exact Hd|exact Hs].
Defined.

(** X14.  A skip with nobody waiting pairs the same two again.  Let
    [socketId] be in a room with [partnerId], and let the pool be empty.
    When [socketId] skips the chat, both are requeued, the partner in front,
    and the Matchmaker pairs them with each other at once, in a new room,
    with the partner as initiator; the pool is empty again. *)
Theorem skip_chat_alone_pairs_again
    (s : State) (socketId r partnerId : string) (user up : User) :
  paired_with s socketId = Some (r, partnerId) →
  users s !! socketId = Some user →
  users s !! partnerId = Some up →
  waitingPool s = [] →
  let room := uuidv4 (next_uuid s) in
  (step s (SkipChat socketId)).2
    = [emit partnerId partner_disconnected; emit socketId auto_searching;
       emit partnerId auto_searching;
       emit partnerId (match_found room socketId true (profile user));
       emit socketId (match_found room partnerId false (profile up))]
  ∧ paired_in (step s (SkipChat socketId)).1 room partnerId socketId
  ∧ waitingPool (step s (SkipChat socketId)).1 = [].
Proof.
  intros Hpaired Hu Hp Hpool room.
  pose proof Hpaired as H'. apply paired_with_Some in H' as (? & room0 & _ & _ & Hf).
  apply find_partner_ne in Hf.
  assert (Hstep : step s (SkipChat socketId)
    = (pair_up (skip_chat_cleanup s socketId r partnerId).1 partnerId socketId [],
       [emit partnerId partner_disconnected; emit socketId auto_searching;
        emit partnerId auto_searching;
        emit partnerId (match_found room socketId true (profile user));
        emit socketId (match_found room partnerId false (profile up))])).
  { simpl. unfold skip_chat. rewrite Hpaired.
    unfold then_tryMatch, skip_chat_cleanup. rewrite Hp. cbn [fst snd].
    assert (Hq : unshift_absent partnerId (push_absent socketId (waitingPool s))
                 = [partnerId; socketId]).
    { rewrite Hpool. unfold unshift_absent, push_absent, includes. simpl.
      rewrite bool_decide_eq_false_2; [done|].
      intros Hin. by apply list_elem_of_singleton in Hin. }
    rewrite (tryMatch_pair_then_exit _ partnerId socketId []
               (to_searching up) (to_searching user)); simpl;
      rewrite ?Hq, ?lookup_alter_eq, ?lookup_alter_ne, ?lookup_alter_eq,
        ?Hp, ?Hu by done; try done; [|lia].
    unfold match_emits. simpl.
    destruct (dissolve_lookup (users s) socketId partnerId to_searching to_searching
                user up Hf Hu Hp) as (Lx & Lp & _).
    by rewrite Lx, Lp. }
  rewrite Hstep. cbn [fst snd]. split_and!; [done| |done].
  unfold room. rewrite <- (skip_chat_cleanup_next s socketId r partnerId).
  apply (pair_up_paired_in _ partnerId socketId []
           (to_searching up) (to_searching user));
    rewrite (skip_chat_cleanup_users s socketId r partnerId up) by done.
  - by rewrite lookup_alter_eq, lookup_alter_ne, Hp.
  - rewrite lookup_alter_ne by done. by rewrite lookup_alter_eq, Hu.
Qed.

(** Z skips W with nobody waiting: W and Z are paired again, W first. *)
Lemma skip_chat_alone_pairs_again_witness :
  paired_with (run init two_rooms) "Z" = Some ("room-0", "W")
  ∧ waitingPool (run init two_rooms) = []
  ∧ paired_in (step (run init two_rooms) (SkipChat "Z")).1 "room-2" "W" "Z".
Proof.
  assert (H1 : paired_with (run init two_rooms) "Z" = Some ("room-0", "W"))
    by reflexivity.
  assert (H2 : waitingPool (run init two_rooms) = []) by reflexivity.
  destruct (skip_chat_alone_pairs_again (run init two_rooms) "Z" "room-0" "W"
              (enter_chat "room-0" (begin_search (profile_of "Z") new_user))
              (enter_chat "room-0" (begin_search (profile_of "W") new_user)) H1)
    as (_ & Hpair & _); [reflexivity..|].
  split_and!; [exact H1|exact H2|exact Hpair].
Defined.

(** ** Searching, again and no more *)

Lemma push_absent_present x : push_absent x [x] = [x].
Proof.
  unfold push_absent, includes. rewrite bool_decide_eq_true_2; [done|].
  apply list_elem_of_here.
Qed.

(** X15.  Searching twice.  Let a connection (its identifier is not empty)
    be searching after its [start-searching], whatever the events before
    were.  Then it is the one entry of the pool, and a second
    [start-searching] stores the new profile and its [id], and does nothing
    else: the pool is as it was and nothing is emitted. *)
Theorem start_searching_again
    (es : list Event) (socketId : string) (p1 p2 : Profile) :
  truthy socketId = true →
  state <$> users (run init (es ++ [StartSearching socketId p1])) !! socketId
    = Some SEARCHING →
  waitingPool (run init (es ++ [StartSearching socketId p1])) = [socketId]
  ∧ step (run init (es ++ [StartSearching socketId p1])) (StartSearching socketId p2)
    = (set_users (alter (begin_search p2) socketId)
         (run init (es ++ [StartSearching socketId p1])), []).
Proof.
  intros Ht Hst.
  pose proof (run_pool_inv (es ++ [StartSearching socketId p1])) as [Hlen _].
  assert (Hin : socketId ∈ waitingPool (run init (es ++ [StartSearching socketId p1]))).
  { revert Hst. rewrite run_snoc. simpl. set (s0 := run init es).
    unfold start_searching.
    destruct (users s0 !! socketId) as [user|] eqn:Hu; [|simpl; by rewrite Hu].
    destruct (bool_decide (state user = IDLE) || bool_decide (state user = SEARCHING))
      eqn:Hg.
    - rewrite then_tryMatch_fst. cbn [fst]. intros Hst.
      destruct (tryMatch_searcher_stays
                  (set_pool (push_absent socketId)
                     (set_users (alter (begin_search p1) socketId) s0))
                  socketId (begin_search p1 user)) as [[Hin _]|Hc]; try done.
      + simpl. apply elem_of_push_absent. by left.
      + simpl. by rewrite lookup_alter_eq, Hu.
      + rewrite Hc in Hst. done.
    - simpl. rewrite Hu. simpl. intros [= Hs]. rewrite Hs in Hg. done. }
  set (s1 := run init (es ++ [StartSearching socketId p1])) in *.
  assert (Hpool : waitingPool s1 = [socketId]) by (by apply short_elem_head).
  split; [done|].
  simpl. unfold start_searching.
  destruct (users s1 !! socketId) as [u1|] eqn:Hu1; [|done].
  simpl in Hst. injection Hst as Hst. rewrite Hst. simpl.
  unfold then_tryMatch. rewrite tryMatch_short.
  - simpl. unfold set_pool, set_users. simpl.
    by rewrite Hpool, push_absent_present.
  - simpl. rewrite Hpool, push_absent_present. simpl. lia.
Qed.

(** X searches, and searches again with another profile. *)
Lemma start_searching_again_witness :
  waitingPool (run init ([Connection "X"] ++ [StartSearching "X" (profile_of "X")]))
    = ["X"]
  ∧ (step (run init ([Connection "X"] ++ [StartSearching "X" (profile_of "X")]))
          (StartSearching "X" (profile_of "Y"))).2 = [].
Proof.
  destruct (start_searching_again [Connection "X"] "X" (profile_of "X") (profile_of "Y"))
    as [Hpool Hstep]; [reflexivity..|].
  split; [exact Hpool|]. by rewrite Hstep.
Defined.

Lemma alter_twice (f g : User → User) key (m : gmap string User) :
  alter f key (alter g key m) = alter (λ u, f (g u)) key m.
Proof.
  apply map_eq. intros i. destruct (decide (key = i)) as [->|Hne].
  - rewrite !lookup_alter_eq. by destruct (m !! i).
  - by rewrite !lookup_alter_ne.
Qed.

(** X16.  Searching and giving up.  An idle user that starts searching
    while nobody waits, and stops searching, is idle again and the pool
    empty again; nothing was emitted; the profile and its [id] stay
    stored. *)
Theorem start_then_stop_searching
    (s : State) (socketId : string) (u : User) (p : Profile) :
  users s !! socketId = Some u → state u = IDLE → waitingPool s = [] →
  run s [StartSearching socketId p; StopSearching socketId]
    = set_users (alter (λ u, set_idle (begin_search p u)) socketId) s
  ∧ (step s (StartSearching socketId p)).2 = []
  ∧ (step (step s (StartSearching socketId p)).1 (StopSearching socketId)).2 = [].
Proof.
  intros Hu Hst Hpool.
  assert (Hstart : step s (StartSearching socketId p)
    = (set_pool (λ _, [socketId]) (set_users (alter (begin_search p) socketId) s), [])).
  { simpl. unfold start_searching. rewrite Hu, Hst. simpl.
    unfold then_tryMatch. rewrite tryMatch_short.
    - simpl. unfold set_pool, set_users. simpl. by rewrite Hpool.
    - simpl. rewrite Hpool. simpl. lia. }
  simpl in Hstart. unfold run. simpl. rewrite !Hstart. simpl.
  unfold stop_searching. simpl. rewrite lookup_alter_eq, Hu. simpl.
  split_and!; try done.
  unfold set_users, set_pool. simpl.
  rewrite splice_out_cons, bool_decide_eq_true_2 by done.
  by rewrite alter_twice, Hpool.
Qed.

(** X, just connected, searches and gives up. *)
Lemma start_then_stop_searching_witness :
  users (run init [Connection "X"]) !! "X" = Some new_user
  ∧ waitingPool (run (run init [Connection "X"])
                   [StartSearching "X" (profile_of "X"); StopSearching "X"]) = [].
Proof.
  assert (H : users (run init [Connection "X"]) !! "X" = Some new_user) by reflexivity.
  destruct (start_then_stop_searching (run init [Connection "X"]) "X" new_user
              (profile_of "X") H) as (Hrun & _); [reflexivity..|].
  split; [exact H|]. rewrite Hrun. reflexivity.
Defined.

(** X17.  After [stop-chat] no chat message.  A user that has stopped its
    chat is idle when the handler returns, whoever the Matchmaker has paired
    meanwhile, and a [chat-message] it sends then is dropped: nothing is
    emitted and nothing changes. *)
Theorem no_chat_after_stop_chat
    (s : State) (socketId r partnerId target message : string) :
  paired_with s socketId = Some (r, partnerId) →
  state <$> users (step s (StopChat socketId)).1 !! socketId = Some IDLE
  ∧ step (step s (StopChat socketId)).1 (ChatMessageEv socketId target message)
    = ((step s (StopChat socketId)).1, []).
Proof.
  intros Hpaired. pose proof Hpaired as H'.
  apply paired_with_Some in H' as (user & room & Hu & _ & Hf).
  apply find_partner_ne in Hf.
  assert (Hidle : users (step s (StopChat socketId)).1 !! socketId = Some (to_idle user)).
  { simpl. unfold stop_chat. rewrite Hpaired, then_tryMatch_fst.
    apply tryMatch_users_not_searching; [|done].
    unfold stop_chat_cleanup. destruct (users s !! partnerId); simpl.
    - rewrite lookup_alter_ne by done. by rewrite lookup_alter_eq, Hu.
    - by rewrite lookup_alter_eq, Hu. }
  split; [by rewrite Hidle|].
  simpl in *. unfold chat_message_handler. by rewrite Hidle.
Qed.

(** Z stops its chat with W, and writes. *)
Lemma no_chat_after_stop_chat_witness :
  paired_with (run init two_rooms) "Z" = Some ("room-0", "W")
  ∧ (step (step (run init two_rooms) (StopChat "Z")).1
          (ChatMessageEv "Z" "W" "hello")).2 = [].
Proof.
  assert (H : paired_with (run init two_rooms) "Z" = Some ("room-0", "W"))
    by reflexivity.
  destruct (no_chat_after_stop_chat (run init two_rooms) "Z" "room-0" "W" "W" "hello" H)
    as [_ Hstep].
  split; [exact H|]. by rewrite Hstep.
Defined.

(** ** Partners *)

(** X18.  Being paired is mutual.  In an honest run, when the registries
    give [b] as the partner of [a] in room [r], they give [a] as the partner
    of [b] in the same room. *)
Theorem pairing_is_mutual (es : list Event) (a b r : string) :
  honest_run init es →
  paired_with (run init es) a = Some (r, b) →
  paired_with (run init es) b = Some (r, a).
Proof.
  intros Hh Hpair. pose proof (run_consistent _ init init_consistent Hh) as Hc.
  set (s := run init es) in *.
  destruct (consistent_paired s a r b Hc Hpair)
    as (ua & ub & room & Hua & Hsa & Hub & Hsb & Hne & Hroom & Hra & Hma & Hmb & Hall).
  destruct (c_rooms s Hc) as [H1 _].
  destruct (H1 r room Hroom) as (Hdiff & (u1 & Hu1 & _ & Hr1) & (u2 & Hu2 & _ & Hr2)).
  assert (Hrb : roomId ub = Some r).
  { destruct Hmb as [E|E]; rewrite <- E in *; congruence. }
  apply paired_with_Some. exists ub, room. split_and!; [done| |].
  - apply live_room_Some. split_and!; [done..| |done].
    apply (c_room_ids s Hc). by eexists.
  - apply find_partner_Some. split.
    + unfold find_other. unfold member in *.
      destruct (room_users room) as [x y]. simpl in *.
      destruct Hma as [-> | ->], Hmb as [-> | ->]; try done.
      * rewrite bool_decide_eq_true_2; done.
      * rewrite bool_decide_eq_false_2 by (intros ?; done).
        rewrite bool_decide_eq_true_2; done.
    + apply (c_keys s Hc). by eexists.
Qed.

(** Z is paired with W, and W with Z. *)
Lemma pairing_is_mutual_witness :
  honest_run init two_rooms
  ∧ paired_with (run init two_rooms) "Z" = Some ("room-0", "W")
  ∧ paired_with (run init two_rooms) "W" = Some ("room-0", "Z").
Proof.
  assert (H1 : honest_run init two_rooms) by (simpl; split_and!; done).
  assert (H2 : paired_with (run init two_rooms) "Z" = Some ("room-0", "W"))
    by reflexivity.
  split_and!; [exact H1|exact H2|].
  exact (pairing_is_mutual two_rooms "Z" "W" "room-0" H1 H2).
Defined.

(** ** What a call of the Matchmaker costs *)

(** X19.  Every pairing uses up two entries.  One call of [tryMatch] emits
    two events for every room identifier it takes from the generator, and
    the entries it leaves in the pool and the events it emits are together
    no more than the entries it found. *)
Theorem tryMatch_uses_up_the_pool (s : State) :
  length (tryMatch s).2 = 2 * (next_uuid (tryMatch s).1 - next_uuid s)
  ∧ length (waitingPool (tryMatch s).1) + length (tryMatch s).2
    ≤ length (waitingPool s).
Proof.
  pose proof (tryMatch_next_uuid s) as Hmono. revert Hmono.
  apply (tryMatch_ind (λ s res,
    next_uuid s ≤ next_uuid res.1 →
    length res.2 = 2 * (next_uuid res.1 - next_uuid s)
    ∧ length (waitingPool res.1) + length res.2 ≤ length (waitingPool s))).
  - intros s0 _ _. simpl. lia.
  - intros s0 a b rest E _ s1 IH Hle. destruct (IH Hle) as [H1 H2].
    split; [done|]. rewrite E. subst s1. simpl in *.
    pose proof (unshift_truthy_length b rest). lia.
  - intros s0 a b rest E _ _ s1 IH Hle. destruct (IH Hle) as [H1 H2].
    split; [done|]. rewrite E. subst s1. simpl in *.
    pose proof (unshift_truthy_length a rest). lia.
  - intros s0 a b rest E _ _ s1 IH _.
    pose proof (tryMatch_next_uuid s1) as Hle. destruct (IH Hle) as [H1 H2].
    cbn [fst snd]. rewrite E. subst s1. simpl in *. lia.
Qed.
